(** * Execution orchestrator of the notebook IDE backend (ide/views.py)

    A shallow embedding of [ExecuteCodeView] and [ExecuteAllCodeView]:
    the language tables, the compiled pipeline with its temporary files,
    the markup preview, the Jupyter pipeline with its reply/drain protocol,
    the per-language ledger of ordered snippets and the batch loop.

    Python strings are modelled as [string] (ASCII text), [None] as the
    [None] of [option], a method's result as a value, a raised exception or
    exhausted fuel ([while True] has no bound in the source).  Everything
    outside the process (temp-file allocation, rename, child processes,
    the kernel and its two channels) is an interface, [Host]. *)

From Stdlib Require Import String Ascii List ZArith Lia Bool.
From stdpp Require Import base gmap strings list.

Local Open Scope string_scope.
Local Open Scope list_scope.

(** ** Python string helpers *)

(** ["sep".join(l)] *)
Definition join (sep : string) (l : list string) : string := String.concat sep l.

(** The one-character newline string ["\n"]. *)
Definition nl : string := String (ascii_of_nat 10) EmptyString.

(** Truth value of a string, and of a string-or-None. *)
Definition str_truthy (s : string) : bool :=
  match s with EmptyString => false | String _ _ => true end.

Definition truthy (o : option string) : bool :=
  match o with None => false | Some s => str_truthy s end.

(** [str.isspace] on ASCII: tab, newline, vertical tab, form feed, carriage
    return, the four separators 0x1c-0x1f and the blank. *)
Definition is_space (c : ascii) : bool :=
  let n := nat_of_ascii c in
  ((9 <=? n)%nat && (n <=? 13)%nat) || ((28 <=? n)%nat && (n <=? 32)%nat).

(** [s.split()]: maximal runs of non-blank characters, [tok] being the run
    read so far. *)
Fixpoint split_from (tok : string) (s : string) : list string :=
  match s with
  | EmptyString => if str_truthy tok then [tok] else []
  | String c s' =>
      if is_space c
      then (if str_truthy tok then tok :: split_from EmptyString s'
            else split_from EmptyString s')
      else split_from (tok +:+ String c EmptyString) s'
  end.

Definition split (s : string) : list string := split_from EmptyString s.

Fixpoint str_mem (c : ascii) (chars : string) : bool :=
  match chars with
  | EmptyString => false
  | String d r => if Ascii.eqb c d then true else str_mem c r
  end.

(** [s.rstrip(chars)]: drops every trailing character that occurs in
    [chars]. *)
Fixpoint rstrip (chars : string) (s : string) : string :=
  match s with
  | EmptyString => EmptyString
  | String c s' =>
      match rstrip chars s' with
      | EmptyString => if str_mem c chars then EmptyString else String c EmptyString
      | r => String c r
      end
  end.

(** ** The language tables *)

(** [get_kernel_name]: the dict literal and its [.get(language, None)]. *)
Definition kernel_entries : list (string * string) :=
  [("python", "python3"); ("javascript", "javascript"); ("r", "ir");
   ("java", "java"); ("cpp", "xeus-cling"); ("c", "clang")].

Definition kernel_table : gmap string string := list_to_map kernel_entries.

Definition get_kernel_name (language : string) : option string :=
  kernel_table !! language.

(** [get_execution_command]: the three f-strings, then [.get]. *)
Definition command_table (file_path : string) : gmap string string :=
  list_to_map
    [("cpp", "g++ " +:+ file_path +:+ " -o " +:+ file_path +:+ ".out && "
               +:+ file_path +:+ ".out");
     ("java", "javac " +:+ file_path +:+ " && java " +:+ rstrip ".java" file_path);
     ("c", "gcc " +:+ file_path +:+ " -o " +:+ file_path +:+ ".out && "
             +:+ file_path +:+ ".out")].

Definition get_execution_command (language file_path : string) : option string :=
  command_table file_path !! language.

(** [get_file_extension]: [.get(language, '')]. *)
Definition extension_table : gmap string string :=
  list_to_map
    [("python", ".py"); ("javascript", ".js"); ("cpp", ".cpp");
     ("java", ".java"); ("r", ".R"); ("c", ".c")].

Definition get_file_extension (language : string) : string :=
  default "" (extension_table !! language).

(** The two literal lists [execute_code] dispatches on. *)
Definition compiled_languages : list string := ["cpp"; "java"; "c"].
Definition markup_languages : list string := ["html"; "css"].

(** The configured language set: what [execute_code] dispatches on by name
    and what has a kernel. *)
Definition configured_languages : list string :=
  compiled_languages ++ markup_languages ++ kernel_entries.*1.

(** ** Results, messages and the host interface *)

(** What a call to the outside gives back: a value or a raised exception,
    kept as its [str(e)]. *)
Inductive outcome (A : Type) : Type :=
  | Ok (a : A)
  | Exn (msg : string).
Arguments Ok {A} a.
Arguments Exn {A} msg.

(** What a read of a channel with a timeout finds: a message, nothing
    within the bound (it raises [queue.Empty]), or another exception. *)
Inductive read (A : Type) : Type :=
  | Got (a : A)
  | Empty
  | ReadExn (msg : string).
Arguments Got {A} a.
Arguments Empty {A}.
Arguments ReadExn {A} msg.

(** How a method of the views ends: it returns, an exception leaves it, or
    the fuel given to its [while True] loop ran out. *)
Inductive ret (A : Type) : Type :=
  | Return (a : A)
  | Raise (exn : string)
  | OutOfFuel.
Arguments Return {A} a.
Arguments Raise {A} exn.
Arguments OutOfFuel {A}.

(** The pair [(result, error)] every pipeline method returns. *)
Definition pair_t : Type := option string * option string.

Definition Success (output : string) : pair_t := (Some output, None).
Definition Failure (message : string) : pair_t := (None, Some message).

(** [subprocess.run(..., stdout=PIPE, stderr=PIPE, text=True)] *)
Record completed_process : Type := {
  returncode : Z;
  stdout : string;
  stderr : string
}.

(** The reply on the shell channel, as far as the code looks into it:
    [reply['content']] when present, with its ['status'] and ['evalue']. *)
Record reply_content : Type := {
  status : option string;
  evalue : option string
}.

Record shell_reply : Type := { content : option reply_content }.

(** A message on the iopub channel, by [msg['msg_type']], with the part of
    [msg['content']] the drain loop reads; an absent key is [None], and
    [OtherMsg] is a message of any type the loop has no branch for. *)
Inductive iopub_msg : Type :=
  | ExecuteResult (text_plain : option string)
  | Stream (text : option string)
  | Error (traceback : option (list string))
  | Status (execution_state : option string)
  | OtherMsg (msg_type : string).

(** The collaborators outside the process.  [K] is the state of one kernel
    client (the kernel behind it included). *)
Class Host (K : Type) : Type := {
  (** [os.name] *)
  os_name : string;
  (** [tempfile.NamedTemporaryFile(delete=False, suffix=...)]: the path of
      the file it creates, given the files that exist. *)
  named_temporary_file : gset string → string → outcome string;
  (** [os.rename(src, dst)] on the files that exist. *)
  os_rename : gset string → string → string → outcome (gset string);
  (** [os.remove(path)] on the files that exist: [None] when it removes
      the path, [Some msg] when it raises ([path] is a directory, the
      removal is not permitted, ...). *)
  os_remove_error : gset string → string → option string;
  (** [subprocess.run(command, shell=True)]: the files it leaves and the
      completed process. *)
  subprocess_run : string → gset string → outcome (gset string * completed_process);
  (** [KernelManager(kernel_name)], [start_kernel()], [client()],
      [start_channels()]. *)
  start_kernel : string → outcome K;
  (** [kc.execute(code)]; [Some msg] when it raises. *)
  kc_execute : K → string → K * option string;
  (** [kc.get_shell_msg(timeout=...)], the bound in time units *)
  kc_get_shell_msg : K → nat → K * read shell_reply;
  (** [kc.get_iopub_msg(timeout=...)], the bound in time units *)
  kc_get_iopub_msg : K → nat → K * read iopub_msg
}.

(** One entry of [ExecuteCodeView.kernels]: the tuple [(km, kc)].  [kid]
    stands for the identity of the two objects: the number of kernels
    started before this one. *)
Record kernel (K : Type) : Type := {
  kid : nat;
  kc : K
}.
Arguments kid {K} _.
Arguments kc {K} _.
Arguments Build_kernel {K} _ _.

(** The state the views share and act on.  [kernels] and [code_sessions]
    are the two class attributes of [ExecuteCodeView]; [files] are the paths
    that exist.  Two fields only record what happened: [started] lists,
    oldest first, the language of each kernel started, and [dispatched]
    each [(language, code)] handed to [execute_code]. *)
Record World (K : Type) : Type := {
  files : gset string;
  kernels : gmap string (kernel K);
  code_sessions : gmap string (list string);
  started : list string;
  dispatched : list (string * string)
}.
Arguments files {K} _.
Arguments kernels {K} _.
Arguments code_sessions {K} _.
Arguments started {K} _.
Arguments dispatched {K} _.
Arguments Build_World {K} _ _ _ _ _.

Definition set_files {K} (fs : gset string) (w : World K) : World K :=
  Build_World fs (kernels w) (code_sessions w) (started w) (dispatched w).

Definition set_kernels {K} (ks : gmap string (kernel K)) (w : World K) : World K :=
  Build_World (files w) ks (code_sessions w) (started w) (dispatched w).

Definition set_code_sessions {K} (cs : gmap string (list string)) (w : World K) : World K :=
  Build_World (files w) (kernels w) cs (started w) (dispatched w).

Definition set_started {K} (n : list string) (w : World K) : World K :=
  Build_World (files w) (kernels w) (code_sessions w) n (dispatched w).

Definition log_dispatch {K} (language code : string) (w : World K) : World K :=
  Build_World (files w) (kernels w) (code_sessions w) (started w)
              (dispatched w ++ [(language, code)]).

(** [os.path.exists] *)
Definition path_exists {K} (w : World K) (p : string) : bool :=
  bool_decide (p ∈ files w).

(** The fresh world of a process that has served no request. *)
Definition initial_world {K} (fs : gset string) : World K :=
  Build_World fs ∅ ∅ [] [].

(** ** The pipelines *)

Definition unsupported_language (language : string) : string :=
  "Unsupported language: " +:+ language.

Definition timeout_message : string :=
  "Execution timed out. The code may be too complex or there could be a kernel issue.".

Definition placeholder : string := "executed succesfully.".

(** [str(e)] of the [IndexError] of [code.split()[2]], of the [KeyError] of
    [msg['content']['execution_state']], and the [UnboundLocalError] of
    reading [tmp_file_path] before its assignment. *)
Definition index_error : string := "list index out of range".
Definition key_error_execution_state : string := "'execution_state'".
Definition unbound_tmp_file_path : string :=
  "UnboundLocalError: local variable 'tmp_file_path' referenced before assignment".

(** How a block of statements inside a [try] ends: it reaches a [return],
    raises [queue.Empty], raises another exception, or runs out of fuel. *)
Inductive signal : Type :=
  | SReturn (p : pair_t)
  | SEmpty
  | SExn (msg : string)
  | SFuel.

Section Pipelines.
Context {K : Type} {HK : Host K}.

(** *** Compiled languages: [execute_compiled_code] *)

(** The locals of [execute_compiled_code] that its [finally] reads:
    [tmp_file_name] starts as [None]; [tmp_file_path] has no value until
    the [with] statement assigns it. *)
Record compiled_locals : Type := {
  tmp_file_name : option string;
  tmp_file_path : option string     (* [None]: not yet assigned *)
}.

(** The first statement of the [try]: the file name, taken from the third
    word of the code for Java. *)
Definition derive_file_name (language code : string) : outcome string :=
  if bool_decide (language = "java")
  then match split code !! 2%nat with
       | Some class_name => Ok (class_name +:+ ".java")
       | None => Exn index_error
       end
  else Ok "temp_file".

(** The body of the [try]. *)
Definition compiled_body (w : World K) (language code : string)
  : World K * compiled_locals * outcome pair_t :=
  let is_java := bool_decide (language = "java") in
  match derive_file_name language code with
  | Exn e => (w, Build_compiled_locals None None, Exn e)
  | Ok name =>
      let file_extension := get_file_extension language in
      match named_temporary_file (files w) file_extension with
      | Exn e => (w, Build_compiled_locals (Some name) None, Exn e)
      | Ok path =>
          let locals := Build_compiled_locals (Some name) (Some path) in
          let w1 := set_files (files w ∪ {[path]}) w in
          match (if is_java then os_rename (files w1) path name
                 else Ok (files w1)) with
          | Exn e => (w1, locals, Exn e)
          | Ok fs2 =>
              let w2 := set_files fs2 w1 in
              match get_execution_command language
                      (if is_java then name else path) with
              | None => (w2, locals, Ok (None, Some (unsupported_language language)))
              | Some command =>
                  match subprocess_run command (files w2) with
                  | Exn e => (w2, locals, Exn e)
                  | Ok (fs3, process) =>
                      let w3 := set_files fs3 w2 in
                      if bool_decide (returncode process ≠ 0%Z)
                      then (w3, locals, Ok (None, Some (stderr process)))
                      else (w3, locals, Ok (Some (stdout process), None))
                  end
              end
          end
      end
  end.

(** [os.remove(p)]: the world without [p], or the exception it raises. *)
Definition os_remove (p : string) (w : World K) : outcome (World K) :=
  match os_remove_error (files w) p with
  | Some e => Exn e
  | None => Ok (set_files (files w ∖ {[p]}) w)
  end.

(** A removal inside the [finally] clause: when it raises, the exception
    replaces the pending return. *)
Definition remove_in_finally (p : string) (w : World K) (pending : ret pair_t)
  : World K * ret pair_t :=
  match os_remove p w with
  | Ok w' => (w', pending)
  | Exn e => (w, Raise e)
  end.

(** The [finally] clause: it removes [tmp_file_name] when that exists,
    else it looks at [tmp_file_path]; reading that variable before its
    assignment raises, and so may either removal; an exception raised here
    replaces the pending return. *)
Definition compiled_finally (w : World K) (locals : compiled_locals)
    (pending : ret pair_t) : World K * ret pair_t :=
  if match tmp_file_name locals with
     | Some name => str_truthy name && path_exists w name
     | None => false
     end
  then remove_in_finally (default "" (tmp_file_name locals)) w pending
  else match tmp_file_path locals with
       | None => (w, Raise unbound_tmp_file_path)
       | Some path =>
           if str_truthy path && path_exists w path
           then remove_in_finally path w pending
           else (w, pending)
       end.

Definition execute_compiled_code (w : World K) (language code : string)
    (block_id : option string) : World K * ret pair_t :=
  let '(w1, locals, r) := compiled_body w language code in
  compiled_finally w1 locals
    (match r with
     | Ok p => Return p
     | Exn e => Return (None, Some e)      (* except Exception as e *)
     end).

(** *** Markup: [execute_html_css] *)

Definition execute_html_css (w : World K) (code : string) : World K * ret pair_t :=
  match named_temporary_file (files w) ".html" with
  | Exn e => (w, Return (None, Some e))
  | Ok path =>
      let w1 := set_files (files w ∪ {[path]}) w in
      let command :=
        if bool_decide (os_name = "nt") then "start " +:+ path
        else "xdg-open " +:+ path in
      match subprocess_run command (files w1) with
      | Exn e => (w1, Return (None, Some e))
      | Ok (fs2, _) =>
          (set_files fs2 w1,
           Return (Some ("HTML/CSS executed successfully. View it at: file://" +:+ path),
                   None))
      end
  end.

(** *** Interactive languages: [execute_code_with_jupyter] *)

(** The [while True] loop over the iopub channel, [result_msgs] being the
    fragments appended so far. *)
Fixpoint drain (fuel : nat) (k : K) (result_msgs : list string) : K * signal :=
  match fuel with
  | O => (k, SFuel)
  | S fuel' =>
      let '(k1, r) := kc_get_iopub_msg k 10 in
      match r with
      | Empty => (k1, SEmpty)
      | ReadExn e => (k1, SExn e)
      | Got msg =>
          match msg with
          | ExecuteResult text_plain =>
              drain fuel' k1 (result_msgs ++ [default "" text_plain])
          | Stream text =>
              drain fuel' k1 (result_msgs ++ [default "" text])
          | Error traceback =>
              (k1, SReturn (None, Some (join nl (default [] traceback))))
          | Status None => (k1, SExn key_error_execution_state)
          | Status (Some execution_state) =>
              if bool_decide (execution_state = "idle")
              then
                let joined := join nl result_msgs in
                (k1, SReturn (Some (if str_truthy joined then joined else placeholder),
                              None))
              else drain fuel' k1 result_msgs
          | OtherMsg _ => drain fuel' k1 result_msgs
          end
      end
  end.

(** From [kc.execute(code)] to the [return]: the inner [try] with its
    [except queue.Empty], inside the outer [except Exception]. *)
Definition exchange (fuel : nat) (k : K) (code : string) : K * ret pair_t :=
  let '(k1, raised) := kc_execute k code in
  match raised with
  | Some e => (k1, Return (None, Some e))
  | None =>
      let '(k2, s) :=
        let '(k2, r) := kc_get_shell_msg k1 10 in
        match r with
        | Empty => (k2, SEmpty)
        | ReadExn e => (k2, SExn e)
        | Got reply =>
            match content reply with
            | Some c =>
                match status c with
                | Some st =>
                    if bool_decide (st = "ok")
                    then drain fuel k2 []
                    else (k2, SReturn
                                (None,
                                 Some (default "Unknown error occurred during execution"
                                         (evalue c))))
                | None => (k2, SReturn (None, Some "Invalid reply from kernel"))
                end
            | None => (k2, SReturn (None, Some "Invalid reply from kernel"))
            end
        end in
      match s with
      | SReturn p => (k2, Return p)
      | SEmpty => (k2, Return (None, Some timeout_message))
      | SExn e => (k2, Return (None, Some e))
      | SFuel => (k2, OutOfFuel)
      end
  end.

Definition execute_code_with_jupyter (fuel : nat) (w : World K)
    (language code : string) (block_id : option string) : World K * ret pair_t :=
  match get_kernel_name language with
  | None => (w, Return (None, Some (unsupported_language language)))
  | Some kernel_name =>
      match kernels w !! language with
      | None =>
          match start_kernel kernel_name with
          | Exn e => (w, Return (None, Some e))
          | Ok k0 =>
              let id := length (started w) in
              let '(k', r) := exchange fuel k0 code in
              (set_kernels (<[language := Build_kernel id k']> (kernels w))
                 (set_started (started w ++ [language]) w), r)
          end
      | Some entry =>
          let '(k', r) := exchange fuel (kc entry) code in
          (set_kernels (<[language := Build_kernel (kid entry) k']> (kernels w)) w, r)
      end
  end.

(** *** Dispatch: [execute_code] (the same in both views) *)

Definition execute_code (fuel : nat) (w : World K) (language code : string)
    (block_id : option string) : World K * ret pair_t :=
  let w := log_dispatch language code w in
  if bool_decide (language ∈ compiled_languages)
  then execute_compiled_code w language code block_id
  else if bool_decide (language ∈ markup_languages)
  then execute_html_css w code
  else execute_code_with_jupyter fuel w language code block_id.

End Pipelines.

(** ** The two views *)

(** The body of [POST execute]; an absent key is [None]. *)
Record request : Type := {
  req_code : option string;
  req_language : option string;
  req_block_id : option string;
  req_execute_in_order : bool
}.

(** [{"error": error}] or [{"output": result}]. *)
Inductive body : Type :=
  | ErrorBody (error : string)
  | OutputBody (output : option string).

Record response : Type := {
  resp_body : body;
  resp_status : nat
}.

(** One element of ["code_blocks"], and the body of [POST execute_all]. *)
Record block : Type := {
  blk_block_id : option string;
  blk_code : option string
}.

Record batch_request : Type := {
  bat_code_blocks : list block;
  bat_language : option string
}.

(** The response of the batch view: the 400 error, or [overall_results]. *)
Inductive batch_response : Type :=
  | BatchError (error : string) (status_code : nat)
  | BatchResults (overall_results : gmap string body).

Section Views.
Context {K : Type} {HK : Host K}.

(** The ordered branch of [post] on [code_sessions]: create the list when
    the language has none, append, join. *)
Definition ledger_append (language code : string)
    (cs : gmap string (list string)) : gmap string (list string) :=
  let cs1 := match cs !! language with
             | None => <[language := []]> cs
             | Some _ => cs
             end in
  alter (λ l, l ++ [code]) language cs1.

Definition ledger (w : World K) (language : string) : list string :=
  default [] (code_sessions w !! language).

(** [ExecuteCodeView.post] *)
Definition post (fuel : nat) (w : World K) (req : request)
  : World K * ret response :=
  if negb (truthy (req_code req)) || negb (truthy (req_language req))
  then (w, Return {| resp_body := ErrorBody "Code or language not provided";
                     resp_status := 400 |})
  else
    let code := default "" (req_code req) in
    let language := default "" (req_language req) in
    let block_id := req_block_id req in
    let '(w1, r) :=
      if req_execute_in_order req
      then
        let w0 := set_code_sessions (ledger_append language code (code_sessions w)) w in
        let full_code := join nl (ledger w0 language) in
        execute_code fuel w0 language full_code block_id
      else execute_code fuel w language code block_id in
    match r with
    | Raise e => (w1, Raise e)
    | OutOfFuel => (w1, OutOfFuel)
    | Return (result, error) =>
        if truthy error
        then (w1, Return {| resp_body := ErrorBody (default "" error);
                            resp_status := 500 |})
        else (w1, Return {| resp_body := OutputBody result; resp_status := 200 |})
    end.

(** The [for block in code_blocks] loop of [ExecuteAllCodeView.post]. *)
Fixpoint run_blocks (fuel : nat) (w : World K) (language : string)
    (blocks : list block) (overall_results : gmap string body)
  : World K * ret (gmap string body) :=
  match blocks with
  | [] => (w, Return overall_results)
  | b :: rest =>
      if negb (truthy (blk_code b)) || negb (truthy (blk_block_id b))
      then run_blocks fuel w language rest overall_results       (* continue *)
      else
        let code := default "" (blk_code b) in
        let block_id := default "" (blk_block_id b) in
        let '(w1, r) := execute_code fuel w language code (Some block_id) in
        match r with
        | Raise e => (w1, Raise e)
        | OutOfFuel => (w1, OutOfFuel)
        | Return (result, error) =>
            run_blocks fuel w1 language rest
              (if truthy error
               then <[block_id := ErrorBody (default "" error)]> overall_results
               else <[block_id := OutputBody result]> overall_results)
        end
  end.

(** [ExecuteAllCodeView.post] *)
Definition post_all (fuel : nat) (w : World K) (req : batch_request)
  : World K * ret batch_response :=
  match bat_code_blocks req, truthy (bat_language req) with
  | _ :: _, true =>
      let '(w1, r) := run_blocks fuel w (default "" (bat_language req))
                        (bat_code_blocks req) ∅ in
      (w1, match r with
           | Return overall_results => Return (BatchResults overall_results)
           | Raise e => Raise e
           | OutOfFuel => OutOfFuel
           end)
  | _, _ => (w, Return (BatchError "Code blocks or language not provided" 400))
  end.

End Views.

(** ** A host to run the model on

    A kernel client is the two queues of what its kernel will deliver: each
    element is what one timed read finds, and a read of an empty queue
    finds nothing within the bound.  [kc.execute(code)] asks [respond] what
    the kernel sends for that code given the codes it has run. *)

Module Queues.

Record client : Type := {
  history : list string;
  shell : list (read shell_reply);
  iopub : list (read iopub_msg)
}.

Definition pop {A} (q : list (read A)) : list (read A) * read A :=
  match q with
  | [] => ([], Empty)
  | r :: q' => (q', r)
  end.

Section WithToolchain.
Variable tmp_path : gset string → string → outcome string.
Variable rename : gset string → string → string → outcome (gset string).
Variable remove_error : gset string → string → option string.
Variable run : string → gset string → outcome (gset string * completed_process).
Variable respond : list string → string → list (read shell_reply) * list (read iopub_msg).

Definition host : Host client := {|
  os_name := "posix";
  named_temporary_file := tmp_path;
  os_rename := rename;
  os_remove_error := remove_error;
  subprocess_run := run;
  start_kernel := λ _, Ok {| history := []; shell := []; iopub := [] |};
  kc_execute := λ k code,
    let '(s, io) := respond (history k) code in
    ({| history := history k ++ [code];
        shell := shell k ++ s;
        iopub := iopub k ++ io |}, None);
  kc_get_shell_msg := λ k timeout,
    let '(q, r) := pop (shell k) in
    ({| history := history k; shell := q; iopub := iopub k |}, r);
  kc_get_iopub_msg := λ k timeout,
    let '(q, r) := pop (iopub k) in
    ({| history := history k; shell := shell k; iopub := q |}, r)
|}.
End WithToolchain.

End Queues.

(** ** Vocabulary of the statements *)

Section Vocabulary.
Context {K : Type} {HK : Host K}.

(** One request served by the process, and the world it leaves, whatever
    the response. *)
Inductive call : Type :=
  | CallPost (fuel : nat) (req : request)
  | CallPostAll (fuel : nat) (req : batch_request).

Definition run_call (c : call) (w : World K) : World K :=
  match c with
  | CallPost fuel req => (post fuel w req).1
  | CallPostAll fuel req => (post_all fuel w req).1
  end.

Definition run_calls (cs : list call) (w : World K) : World K :=
  foldl (λ w c, run_call c w) w cs.

(** The worlds a process can be in: it starts with no kernel and no
    ledger and serves requests one after the other. *)
Inductive reachable : World K → Prop :=
  | reachable_initial fs : reachable (initial_world fs)
  | reachable_call w c : reachable w → reachable (run_call c w).

(** [iopub_reads k rs k']: from client state [k], successive reads of the
    iopub channel find [rs] and leave the client in [k']. *)
Inductive iopub_reads : K → list (read iopub_msg) → K → Prop :=
  | iopub_reads_nil k : iopub_reads k [] k
  | iopub_reads_cons k k1 k2 r rs :
      kc_get_iopub_msg k 10 = (k1, r) →
      iopub_reads k1 rs k2 →
      iopub_reads k (r :: rs) k2.

(** The client a request for [language] talks to: the pooled one, or the
    one a successful start returns when the pool has none. *)
Definition serves (w : World K) (language : string) (k : K) : Prop :=
  ∃ kernel_name,
    get_kernel_name language = Some kernel_name ∧
    match kernels w !! language with
    | Some entry => kc entry = k
    | None => start_kernel kernel_name = Ok k
    end.

(** The pool of kernels is in order: no language had two kernels started,
    every pooled kernel is the one started for its language (a language
    that has a kernel name), and every kernel started is still pooled. *)
Definition pool_inv (w : World K) : Prop :=
  NoDup (started w) ∧
  (∀ L e, kernels w !! L = Some e →
          started w !! kid e = Some L ∧ is_Some (get_kernel_name L)) ∧
  (∀ L, L ∈ started w → is_Some (kernels w !! L)).

(** Every kernel pooled in [w] is pooled in [w'], the same object. *)
Definition keeps_kernels (w w' : World K) : Prop :=
  ∀ L e, kernels w !! L = Some e →
         ∃ e', kernels w' !! L = Some e' ∧ kid e' = kid e.

(** What every step of the views does to the pool. *)
Definition pool_step (w w' : World K) : Prop :=
  keeps_kernels w w' ∧ (pool_inv w → pool_inv w').

End Vocabulary.

(** What a message adds to [result_msgs]. *)
Definition fragments (msg : iopub_msg) : list string :=
  match msg with
  | ExecuteResult text_plain => [default "" text_plain]
  | Stream text => [default "" text]
  | _ => []
  end.

(** The messages after which the drain loop reads on: all but an error, an
    idle status, and a status without its state. *)
Definition passes (msg : iopub_msg) : bool :=
  match msg with
  | Error _ => false
  | Status None => false
  | Status (Some execution_state) => negb (bool_decide (execution_state = "idle"))
  | _ => true
  end.

(** The end of the drain loop as C2 words it: the fragments joined by
    newlines, or the placeholder when no fragment was collected. *)
Definition claimed_result (result_msgs : list string) : pair_t :=
  match result_msgs with
  | [] => Success placeholder
  | _ => Success (join nl result_msgs)
  end.

Definition idle : iopub_msg := Status (Some "idle").
Definition busy : iopub_msg := Status (Some "busy").

Definition reply_with (st : string) (ev : option string) : shell_reply :=
  {| content := Some {| status := Some st; evalue := ev |} |}.

Definition ordered (language code : string) (block_id : option string) : request :=
  {| req_code := Some code; req_language := Some language;
     req_block_id := block_id; req_execute_in_order := true |}.

(** ** A small host for the examples *)

Module Demo.

(** Temp files are [/tmp/tmp0<suffix>]; a rename moves the file. *)
Definition tmp0 (fs : gset string) (suffix : string) : outcome string :=
  Ok ("/tmp/tmp0" +:+ suffix).

Definition mv (fs : gset string) (src dst : string) : outcome (gset string) :=
  Ok ((fs ∖ {[src]}) ∪ {[dst]}).

(** Every removal succeeds. *)
Definition rm (fs : gset string) (p : string) : option string := None.

(** A C toolchain on [/tmp/tmp0.c]: [gcc] writes the binary it is told to
    write with [-o], the binary prints [hi] and exits with 0; any other
    command fails with exit code 1 and a message on stderr. *)
Definition toolchain (command : string) (fs : gset string)
  : outcome (gset string * completed_process) :=
  if bool_decide (command = "gcc /tmp/tmp0.c -o /tmp/tmp0.c.out && /tmp/tmp0.c.out")
  then Ok (fs ∪ {["/tmp/tmp0.c.out"]},
           {| returncode := 0; stdout := "hi"; stderr := "" |})
  else Ok (fs, {| returncode := 1; stdout := ""; stderr := "error: compilation failed" |}).

(** A toy Python kernel: it knows [x] once [x = 5] has run. *)
Definition respond (history : list string) (code : string)
  : list (read shell_reply) * list (read iopub_msg) :=
  if bool_decide (code = "print(x)")
  then if bool_decide ("x = 5" ∈ history)
       then ([Got (reply_with "ok" None)], [Got busy; Got (Stream (Some "5")); Got idle])
       else ([Got (reply_with "error" (Some "name 'x' is not defined"))],
             [Got busy; Got idle])
  else if bool_decide (code = "1 +")
  then ([Got (reply_with "error" (Some "invalid syntax"))], [Got busy; Got idle])
  else if bool_decide (code = "1 + 1")
  then ([Got (reply_with "ok" None)], [Got busy; Got (ExecuteResult (Some "2")); Got idle])
  else if bool_decide (code = "display()")
  then ([Got (reply_with "ok" None)], [Got busy; Got (ExecuteResult None); Got idle])
  else if bool_decide (code = "warn()")
  then ([Got (reply_with "ok" None)],
        [Got busy; Got (Stream (Some "before"));
         Got (Error (Some ["Traceback"; "RuntimeWarning"])); Got (Stream (Some "after"));
         Got idle])
  else if bool_decide (code = "import time; time.sleep(60)")
  then ([], [])
  else if bool_decide (code = "print(1); time.sleep(60)")
  then ([Got (reply_with "ok" None)], [Got busy; Got (Stream (Some "1"))])
  else ([Got (reply_with "ok" None)], [Got busy; Got idle]).

Definition host : Host Queues.client := Queues.host tmp0 mv rm toolchain respond.

Definition world0 : World Queues.client := initial_world ∅.

End Demo.

(** ** Further vocabulary *)

(** A block the batch loop runs: it has code and a block id, both non-empty. *)
Definition block_complete (b : block) : bool :=
  truthy (blk_code b) && truthy (blk_block_id b).

(** What the batch loop hands to [execute_code] for a block. *)
Definition block_program (language : string) (b : block) : string * string :=
  (language, default "" (blk_code b)).

(** Whether the last character of [s] occurs in [chars]. *)
Fixpoint last_in (chars : string) (s : string) : bool :=
  match s with
  | EmptyString => false
  | String c EmptyString => str_mem c chars
  | String _ r => last_in chars r
  end.

(** Whether every character of [s] occurs in [chars]. *)
Fixpoint all_in (chars : string) (s : string) : bool :=
  match s with
  | EmptyString => true
  | String c r => str_mem c chars && all_in chars r
  end.

(** Whether some character of [s] is blank. *)
Fixpoint has_space (s : string) : bool :=
  match s with
  | EmptyString => false
  | String c r => is_space c || has_space r
  end.

(** Kernels were started for languages of the Jupyter branch only. *)
Definition only_interactive {K} (w : World K) : Prop :=
  ∀ L, L ∈ started w → (L ∉ compiled_languages) ∧ (L ∉ markup_languages).

(** The error of a reply whose status is not [ok]: its [evalue], the
    default text when it has none, or the text for a reply without content
    or status. *)
Definition reply_error (reply : shell_reply) : string :=
  match content reply with
  | Some c =>
      match status c with
      | Some _ => default "Unknown error occurred during execution" (evalue c)
      | None => "Invalid reply from kernel"
      end
  | None => "Invalid reply from kernel"
  end.

Definition reply_is_ok (reply : shell_reply) : bool :=
  match content reply with
  | Some c => bool_decide (status c = Some "ok")
  | None => false
  end.

(** More hosts for the examples: one whose commands all fail without a
    word on stderr, one that cannot allocate a temporary file, and others
    below. *)
Module MoreHosts.



Definition no_tmp (fs : gset string) (suffix : string) : outcome string :=
  Exn "No usable temporary directory found".

Definition no_tmp_host : Host Queues.client :=
  Queues.host no_tmp Demo.mv Demo.rm Demo.toolchain Demo.respond.

(** A host on which no file can be removed, with and without temporary
    files to allocate. *)
Definition locked (fs : gset string) (p : string) : option string :=
  Some "Permission denied".

Definition locked_host : Host Queues.client :=
  Queues.host Demo.tmp0 Demo.mv locked Demo.toolchain Demo.respond.

Definition locked_no_tmp_host : Host Queues.client :=
  Queues.host no_tmp Demo.mv locked Demo.toolchain Demo.respond.

(** A kernel whose iopub channel misbehaves after a first stream message:
    a status message without its state, or a read that raises. *)
Definition odd_respond (history : list string) (code : string)
  : list (read shell_reply) * list (read iopub_msg) :=
  if bool_decide (code = "status")
  then ([Got (reply_with "ok" None)], [Got (Stream (Some "1")); Got (Status None)])
  else ([Got (reply_with "ok" None)],
        [Got (Stream (Some "1")); ReadExn "connection lost"]).

Definition odd_host : Host Queues.client :=
  Queues.host Demo.tmp0 Demo.mv Demo.rm Demo.toolchain odd_respond.

End MoreHosts.

(** ** Sanity checks of the helpers *)

Example split_java : split "public class  Main {" = ["public"; "class"; "Main"; "{"].
Proof. reflexivity. Qed.

Example split_two_words : split "class A{}" = ["class"; "A{}"].
Proof. reflexivity. Qed.

Example rstrip_java : rstrip ".java" "Java.java" = "J".
Proof. reflexivity. Qed.

Example kernel_python : get_kernel_name "python" = Some "python3".
Proof. vm_compute. reflexivity. Qed.

Example command_c :
  get_execution_command "c" "/tmp/t.c" = Some "gcc /tmp/t.c -o /tmp/t.c.out && /tmp/t.c.out".
Proof. vm_compute. reflexivity. Qed.

Example join_three : join nl ["a"; "b"; "c"] = "a" +:+ nl +:+ "b" +:+ nl +:+ "c".
Proof. reflexivity. Qed.

(** ** The language tables *)

Lemma str_truthy_true (s : string) : str_truthy s = true ↔ s ≠ "".
Proof. destruct s; simpl; split; congruence. Qed.

Lemma truthy_some (s : string) : s ≠ "" → truthy (Some s) = true.
Proof. intros. simpl. by apply str_truthy_true. Qed.

Lemma unconfigured_not_compiled (language : string) :
  language ∉ configured_languages → language ∉ compiled_languages.
Proof. unfold configured_languages. rewrite !elem_of_app. tauto. Qed.

Lemma unconfigured_not_markup (language : string) :
  language ∉ configured_languages → language ∉ markup_languages.
Proof. unfold configured_languages. rewrite !elem_of_app. tauto. Qed.

Lemma unconfigured_no_kernel (language : string) :
  language ∉ configured_languages → get_kernel_name language = None.
Proof.
  unfold configured_languages. rewrite !elem_of_app. intros Hn.
  unfold get_kernel_name, kernel_table.
  apply not_elem_of_list_to_map_1. tauto.
Qed.

Lemma no_command_outside_compiled (language file_path : string) :
  language ∉ compiled_languages → get_execution_command language file_path = None.
Proof.
  intros Hn. unfold get_execution_command, command_table.
  apply not_elem_of_list_to_map_1. exact Hn.
Qed.

Lemma command_of_compiled (language file_path : string) :
  language ∈ compiled_languages →
  is_Some (get_execution_command language file_path).
Proof.
  intros Hin. unfold get_execution_command, command_table.
  apply elem_of_dom. rewrite dom_list_to_map_L. apply elem_of_list_to_set. exact Hin.
Qed.

(** ** What each pipeline leaves untouched *)

Section Frames.
Context {K : Type} {HK : Host K}.

Ltac crush_frame :=
  repeat (simpl in *; case_match; simplify_eq); simpl; auto.

Lemma compiled_finally_frame (w : World K) locals pending :
  let w' := (compiled_finally w locals pending).1 in
  code_sessions w' = code_sessions w ∧ kernels w' = kernels w ∧
  started w' = started w ∧ dispatched w' = dispatched w.
Proof. unfold compiled_finally, remove_in_finally, os_remove. crush_frame. Qed.

Lemma compiled_body_frame (w : World K) language code :
  let w' := (compiled_body w language code).1.1 in
  code_sessions w' = code_sessions w ∧ kernels w' = kernels w ∧
  started w' = started w ∧ dispatched w' = dispatched w.
Proof. unfold compiled_body. crush_frame. Qed.

Lemma execute_compiled_code_frame (w : World K) language code block_id :
  let w' := (execute_compiled_code w language code block_id).1 in
  code_sessions w' = code_sessions w ∧ kernels w' = kernels w ∧
  started w' = started w ∧ dispatched w' = dispatched w.
Proof.
  unfold execute_compiled_code.
  pose proof (compiled_body_frame w language code) as Hb.
  destruct (compiled_body w language code) as [[w1 locals] r]. simpl in Hb.
  pose proof (compiled_finally_frame w1 locals
                (match r with Ok p => Return p | Exn e => Return (None, Some e) end)) as Hf.
  simpl in *. intuition congruence.
Qed.

Lemma execute_html_css_frame (w : World K) code :
  let w' := (execute_html_css w code).1 in
  code_sessions w' = code_sessions w ∧ kernels w' = kernels w ∧
  started w' = started w ∧ dispatched w' = dispatched w.
Proof. unfold execute_html_css. crush_frame. Qed.

Lemma execute_code_with_jupyter_frame fuel (w : World K) language code block_id :
  let w' := (execute_code_with_jupyter fuel w language code block_id).1 in
  code_sessions w' = code_sessions w ∧ dispatched w' = dispatched w ∧
  files w' = files w.
Proof. unfold execute_code_with_jupyter. crush_frame. Qed.

(** [execute_code] records the pair it was given and never touches the
    ledger. *)
Lemma execute_code_frame fuel (w : World K) language code block_id :
  let w' := (execute_code fuel w language code block_id).1 in
  code_sessions w' = code_sessions w ∧
  dispatched w' = dispatched w ++ [(language, code)].
Proof.
  unfold execute_code.
  repeat case_bool_decide.
  - pose proof (execute_compiled_code_frame (log_dispatch language code w)
                  language code block_id) as Hf. simpl in *. tauto.
  - pose proof (execute_html_css_frame (log_dispatch language code w) code) as Hf.
    simpl in *. tauto.
  - pose proof (execute_code_with_jupyter_frame fuel (log_dispatch language code w)
                  language code block_id) as Hf. simpl in *. tauto.
Qed.

End Frames.

(** ** The ledger of ordered snippets *)

Section Ledger.
Context {K : Type} {HK : Host K}.

Lemma ledger_append_lookup (language code : string) (cs : gmap string (list string)) :
  ledger_append language code cs !! language = Some (default [] (cs !! language) ++ [code]).
Proof.
  unfold ledger_append. destruct (cs !! language) as [l|] eqn:E.
  - rewrite lookup_alter_eq, E. reflexivity.
  - rewrite lookup_alter_eq, lookup_insert_eq. reflexivity.
Qed.

Lemma ledger_append_lookup_ne (language other code : string)
    (cs : gmap string (list string)) :
  other ≠ language → ledger_append language code cs !! other = cs !! other.
Proof.
  intros Hne. unfold ledger_append. rewrite lookup_alter_ne by congruence.
  destruct (cs !! language); [reflexivity|].
  rewrite lookup_insert_ne by congruence. reflexivity.
Qed.

(** The world an ordered request leaves, whatever its response. *)
Lemma post_ordered_world fuel (w : World K) (language code : string) block_id :
  language ≠ "" → code ≠ "" →
  let w' := (post fuel w (ordered language code block_id)).1 in
  ledger w' language = ledger w language ++ [code] ∧
  dispatched w' = dispatched w ++ [(language, join nl (ledger w language ++ [code]))] ∧
  (∀ other, other ≠ language → ledger w' other = ledger w other).
Proof.
  intros Hl Hc. unfold post. simpl.
  rewrite (proj2 (str_truthy_true code) Hc), (proj2 (str_truthy_true language) Hl). simpl.
  set (w0 := set_code_sessions (ledger_append language code (code_sessions w)) w).
  assert (Hw0 : ledger w0 language = ledger w language ++ [code]).
  { unfold ledger, w0. simpl. rewrite ledger_append_lookup. reflexivity. }
  rewrite Hw0.
  pose proof (execute_code_frame fuel w0 language
                (join nl (ledger w language ++ [code])) block_id) as [Hcs Hd].
  destruct (execute_code fuel w0 language (join nl (ledger w language ++ [code])) block_id)
    as [w1 r]. simpl in Hcs, Hd.
  assert (Hw1 : (let '(result, error) := (None, None) : pair_t in w1) = w1) by reflexivity.
  assert (Hfst : ∀ X, (match r with
                 | Return (result, error) =>
                     if truthy error
                     then (w1, Return {| resp_body := ErrorBody (default "" error);
                                         resp_status := 500 |})
                     else (w1, Return {| resp_body := OutputBody result;
                                         resp_status := 200 |})
                 | Raise e => (w1, Raise e)
                 | OutOfFuel => (w1, OutOfFuel)
                 end).1 = X → X = w1).
  { intros X <-. destruct r as [[result error]| |]; [destruct (truthy error)| |]; reflexivity. }
  rewrite (Hfst _ eq_refl).
  split; [|split].
  - unfold ledger. rewrite Hcs. exact Hw0.
  - rewrite Hd. reflexivity.
  - intros other Hne. unfold ledger. rewrite Hcs. unfold w0. simpl.
    rewrite ledger_append_lookup_ne by exact Hne. reflexivity.
Qed.

End Ledger.

Section OrderedExecution.
Context {K : Type} {HK : Host K}.

(** C1.  Three ordered requests for a language [L] with snippets [A], [B]
    and [C] hand to [execute_code], one after the other, the newline join
    of the ledger of [L] extended by [A], by [A; B] and by [A; B; C]: each
    program is the join of everything accumulated for [L], the snippet just
    appended included.  On a ledger that was empty these are [A],
    [A\nB] and [A\nB\nC]. *)
Theorem ordered_requests_run_joined_ledger
    (f1 f2 f3 : nat) (w : World K) (L A B C : string) (ba bb bc : option string) :
  L ≠ "" → A ≠ "" → B ≠ "" → C ≠ "" →
  let w1 := (post f1 w (ordered L A ba)).1 in
  let w2 := (post f2 w1 (ordered L B bb)).1 in
  let w3 := (post f3 w2 (ordered L C bc)).1 in
  dispatched w1 = dispatched w ++ [(L, join nl (ledger w L ++ [A]))] ∧
  dispatched w2 = dispatched w1 ++ [(L, join nl (ledger w L ++ [A; B]))] ∧
  dispatched w3 = dispatched w2 ++ [(L, join nl (ledger w L ++ [A; B; C]))] ∧
  (ledger w L = [] →
   dispatched w3 =
     dispatched w ++ [(L, A); (L, A +:+ nl +:+ B); (L, A +:+ nl +:+ B +:+ nl +:+ C)]).
Proof.
  intros HL HA HB HC w1 w2 w3.
  destruct (post_ordered_world f1 w L A ba HL HA) as (Hl1 & Hd1 & _).
  destruct (post_ordered_world f2 w1 L B bb HL HB) as (Hl2 & Hd2 & _).
  destruct (post_ordered_world f3 w2 L C bc HL HC) as (Hl3 & Hd3 & _).
  fold w1 in Hl1, Hd1, Hl2, Hd2. fold w2 in Hl2, Hd2, Hl3, Hd3. fold w3 in Hl3, Hd3.
  rewrite Hl1 in Hd2. rewrite Hl2, Hl1 in Hd3.
  replace ((ledger w L ++ [A]) ++ [B]) with (ledger w L ++ [A; B]) in Hd2
    by (rewrite <- app_assoc; reflexivity).
  replace (((ledger w L ++ [A]) ++ [B]) ++ [C]) with (ledger w L ++ [A; B; C]) in Hd3
    by (rewrite <- !app_assoc; reflexivity).
  split; [assumption|]. split; [assumption|]. split; [assumption|].
  intros Hempty. rewrite Hd3, Hd2, Hd1, Hempty. simpl.
  rewrite <- !app_assoc. simpl.
  destruct A; [congruence|]. destruct B; [congruence|]. destruct C; [congruence|].
  reflexivity.
Qed.

End OrderedExecution.

(** C1 on the toy kernel: [x = 5], then [print(x)], then [1 + 1]. *)
Lemma ordered_requests_run_joined_ledger_witness :
  let H := Demo.host in
  let w1 := (post 9 Demo.world0 (ordered "python" "x = 5" (Some "b1"))).1 in
  let w2 := (post 9 w1 (ordered "python" "print(x)" (Some "b2"))).1 in
  let w3 := (post 9 w2 (ordered "python" "1 + 1" (Some "b3"))).1 in
  dispatched w3 =
    [("python", "x = 5");
     ("python", "x = 5" +:+ nl +:+ "print(x)");
     ("python", "x = 5" +:+ nl +:+ "print(x)" +:+ nl +:+ "1 + 1")].
Proof.
  intros H w1 w2 w3.
  apply (proj2 (proj2 (proj2
           (ordered_requests_run_joined_ledger (HK := H) 9 9 9 Demo.world0
              "python" "x = 5" "print(x)" "1 + 1" (Some "b1") (Some "b2") (Some "b3")
              ltac:(discriminate) ltac:(discriminate) ltac:(discriminate)
              ltac:(discriminate))))).
  reflexivity.
Defined.

Section LedgerGrowth.
Context {K : Type} {HK : Host K}.

(** The world a request leaves does not depend on how the response is
    built from the pipeline's pair. *)
Lemma post_world fuel (w : World K) (req : request) :
  (post fuel w req).1 =
    if negb (truthy (req_code req)) || negb (truthy (req_language req)) then w
    else
      let code := default "" (req_code req) in
      let language := default "" (req_language req) in
      if req_execute_in_order req
      then
        let w0 := set_code_sessions (ledger_append language code (code_sessions w)) w in
        (execute_code fuel w0 language (join nl (ledger w0 language)) (req_block_id req)).1
      else (execute_code fuel w language code (req_block_id req)).1.
Proof.
  unfold post.
  destruct (negb (truthy (req_code req)) || negb (truthy (req_language req)));
    [reflexivity|].
  simpl. destruct (req_execute_in_order req).
  - destruct (execute_code _ _ _ _ _) as [w1 [[result error]| |]]; simpl;
      [destruct (truthy error)| |]; reflexivity.
  - destruct (execute_code _ _ _ _ _) as [w1 [[result error]| |]]; simpl;
      [destruct (truthy error)| |]; reflexivity.
Qed.

Lemma run_blocks_code_sessions fuel (w : World K) language blocks acc :
  code_sessions (run_blocks fuel w language blocks acc).1 = code_sessions w.
Proof.
  revert w acc. induction blocks as [|b rest IH]; intros w acc; simpl; [reflexivity|].
  destruct (negb (truthy (blk_code b)) || negb (truthy (blk_block_id b))); [apply IH|].
  pose proof (execute_code_frame fuel w language (default "" (blk_code b))
                (Some (default "" (blk_block_id b)))) as [Hcs _].
  destruct (execute_code _ _ _ _ _) as [w1 [[result error]| |]]; simpl in *;
    [rewrite IH|..]; exact Hcs.
Qed.

Lemma post_all_code_sessions fuel (w : World K) (req : batch_request) :
  code_sessions (post_all fuel w req).1 = code_sessions w.
Proof.
  unfold post_all. destruct (bat_code_blocks req) as [|b rest]; [reflexivity|].
  destruct (truthy (bat_language req)); [|reflexivity].
  pose proof (run_blocks_code_sessions fuel w (default "" (bat_language req))
                (b :: rest) ∅) as Hr.
  destruct (run_blocks _ _ _ _ _) as [w1 r]. exact Hr.
Qed.

(** The ledger is append-only: a request leaves the list of every language
    as it was or one snippet longer. *)
Lemma run_call_ledger_prefix (c : call) (w : World K) (language : string) :
  ledger w language `prefix_of` ledger (run_call c w) language.
Proof.
  destruct c as [fuel req|fuel req]; simpl.
  - unfold ledger. rewrite post_world.
    destruct (negb (truthy (req_code req)) || negb (truthy (req_language req)));
      [reflexivity|].
    cbv zeta. destruct (req_execute_in_order req).
    + pose proof (execute_code_frame fuel
        (set_code_sessions
           (ledger_append (default "" (req_language req)) (default "" (req_code req))
              (code_sessions w)) w)
        (default "" (req_language req))
        (join nl (ledger (set_code_sessions
           (ledger_append (default "" (req_language req)) (default "" (req_code req))
              (code_sessions w)) w) (default "" (req_language req))))
        (req_block_id req)) as [Hcs _].
      simpl in Hcs. rewrite Hcs.
      destruct (decide (language = default "" (req_language req))) as [->|Hne].
      * rewrite ledger_append_lookup. simpl. by apply prefix_app_r.
      * rewrite ledger_append_lookup_ne by exact Hne. reflexivity.
    + pose proof (execute_code_frame fuel w (default "" (req_language req))
                    (default "" (req_code req)) (req_block_id req)) as [Hcs _].
      simpl in Hcs. rewrite Hcs. reflexivity.
  - unfold ledger. rewrite post_all_code_sessions. reflexivity.
Qed.

Lemma run_calls_ledger_prefix (cs : list call) (w : World K) (language : string) :
  ledger w language `prefix_of` ledger (run_calls cs w) language.
Proof.
  revert w. induction cs as [|c cs IH]; intros w; simpl; [reflexivity|].
  etrans; [apply (run_call_ledger_prefix c)|apply IH].
Qed.

(** C10.  An ordered request appends its snippet to the ledger before the
    pipeline runs (the program dispatched already ends with it), and the
    snippet stays whatever the pipeline answers, a failure or an exception
    included: after any further requests the ledger of the language still
    begins with the old history followed by that snippet, so the program
    of every later ordered request for the language contains it. *)
Theorem ordered_snippet_kept_after_failure
    (fuel : nat) (w : World K) (L code : string) (block_id : option string) :
  L ≠ "" → code ≠ "" →
  let w1 := (post fuel w (ordered L code block_id)).1 in
  dispatched w1 = dispatched w ++ [(L, join nl (ledger w L ++ [code]))] ∧
  ledger w1 L = ledger w L ++ [code] ∧
  ∀ (between : list call) (fuel' : nat) (code' : string) (block_id' : option string),
    code' ≠ "" →
    let w2 := run_calls between w1 in
    ∃ later : list string,
      ledger w2 L = ledger w L ++ [code] ++ later ∧
      dispatched (post fuel' w2 (ordered L code' block_id')).1 =
        dispatched w2 ++ [(L, join nl (ledger w L ++ [code] ++ later ++ [code']))].
Proof.
  intros HL Hcode w1.
  destruct (post_ordered_world fuel w L code block_id HL Hcode) as (Hl1 & Hd1 & _).
  fold w1 in Hl1, Hd1.
  split; [exact Hd1|]. split; [exact Hl1|].
  intros between fuel' code' block_id' Hcode' w2.
  destruct (run_calls_ledger_prefix between w1 L) as [later Hlater].
  fold w2 in Hlater. rewrite Hl1, <- app_assoc in Hlater.
  exists later. split; [exact Hlater|].
  destruct (post_ordered_world fuel' w2 L code' block_id' HL Hcode') as (_ & Hd2 & _).
  rewrite Hd2, Hlater, <- !app_assoc. reflexivity.
Qed.

End LedgerGrowth.

(** C10 on the toy kernel: [1 +] is a syntax error and the request fails;
    the next ordered request runs it again in front of its own snippet. *)
Lemma ordered_snippet_kept_after_failure_witness :
  let H := Demo.host in
  let r1 := post 9 Demo.world0 (ordered "python" "1 +" (Some "b1")) in
  r1.2 = Return {| resp_body := ErrorBody "invalid syntax"; resp_status := 500 |} ∧
  ledger r1.1 "python" = ["1 +"] ∧
  ∃ later,
    dispatched (post 9 r1.1 (ordered "python" "x = 5" (Some "b2"))).1 =
      dispatched r1.1 ++ [("python", join nl (["1 +"] ++ later ++ ["x = 5"]))].
Proof.
  intros H r1. split; [vm_compute; reflexivity|].
  destruct (ordered_snippet_kept_after_failure (HK := H) 9 Demo.world0
              "python" "1 +" (Some "b1") ltac:(discriminate) ltac:(discriminate))
    as (_ & Hl & Hlater).
  split; [exact Hl|].
  destruct (Hlater [] 9 "x = 5" (Some "b2") ltac:(discriminate)) as (later & _ & Hd).
  exists later. exact Hd.
Defined.

(** ** The compiled pipeline *)

Section Compiled.
Context {K : Type} {HK : Host K}.

(** The path of the [try] on which the child process is run to its end:
    the locals are both assigned and the pair follows the exit code. *)
Lemma compiled_body_completes (w : World K) (language code name path command : string)
    (fs2 fs3 : gset string) (process : completed_process) :
  derive_file_name language code = Ok name →
  named_temporary_file (files w) (get_file_extension language) = Ok path →
  (if bool_decide (language = "java")
   then os_rename (files w ∪ {[path]}) path name
   else Ok (files w ∪ {[path]})) = Ok fs2 →
  get_execution_command language
    (if bool_decide (language = "java") then name else path) = Some command →
  subprocess_run command fs2 = Ok (fs3, process) →
  ∃ w3, compiled_body w language code =
          (w3, {| tmp_file_name := Some name; tmp_file_path := Some path |},
           Ok (if bool_decide (returncode process ≠ 0%Z)
               then Failure (stderr process) else Success (stdout process))) ∧
        files w3 = fs3.
Proof.
  intros Hname Hpath Hmv Hcmd Hrun. unfold compiled_body.
  rewrite Hname, Hpath. simpl. rewrite Hmv. simpl. rewrite Hcmd, Hrun.
  destruct (bool_decide (returncode process ≠ 0%Z)); eexists; split; reflexivity.
Qed.

(** With [tmp_file_path] assigned and a removal that does not raise, the
    [finally] clause lets the pending return through. *)
Lemma compiled_finally_returns (w : World K) (name : option string) (path : string)
    (pending : ret pair_t) :
  (∀ p, os_remove_error (files w) p = None) →
  (compiled_finally w {| tmp_file_name := name; tmp_file_path := Some path |} pending).2
  = pending.
Proof.
  intros Hrm. unfold compiled_finally, remove_in_finally, os_remove. simpl.
  repeat case_match; simplify_eq; try reflexivity; rewrite Hrm in *; discriminate.
Qed.

(** With [tmp_file_path] assigned, what leaves the [finally] clause is the
    pending return or the exception of one of the two removals. *)
Lemma compiled_finally_returns_or_removal_raises (w : World K) (name : option string)
    (path : string) (pending : ret pair_t) :
  let r := (compiled_finally w {| tmp_file_name := name; tmp_file_path := Some path |}
              pending).2 in
  r = pending ∨
  ∃ p e, (name = Some p ∨ p = path) ∧ p ∈ files w ∧
         os_remove_error (files w) p = Some e ∧ r = Raise e.
Proof.
  unfold compiled_finally, remove_in_finally, os_remove, path_exists. simpl.
  destruct name as [n|]; simpl.
  - destruct (str_truthy n && bool_decide (n ∈ files w)) eqn:Hn.
    + apply andb_prop in Hn as [_ Hn]. apply bool_decide_eq_true_1 in Hn.
      destruct (os_remove_error (files w) n) as [e|] eqn:He; [|by left].
      right. exists n, e. auto.
    + destruct (str_truthy path && bool_decide (path ∈ files w)) eqn:Hp; [|by left].
      apply andb_prop in Hp as [_ Hp]. apply bool_decide_eq_true_1 in Hp.
      destruct (os_remove_error (files w) path) as [e|] eqn:He; [|by left].
      right. exists path, e. auto.
  - destruct (str_truthy path && bool_decide (path ∈ files w)) eqn:Hp; [|by left].
    apply andb_prop in Hp as [_ Hp]. apply bool_decide_eq_true_1 in Hp.
    destruct (os_remove_error (files w) path) as [e|] eqn:He; [|by left].
    right. exists path, e. auto.
Qed.


(** C4 (what the code does).  On the path where the command is run, the
    [finally] clause removes one path at most, [tmp_file_name] or else
    [tmp_file_path]: every other file the command left is still there
    when the call returns, and so is the temporary file itself when a file
    called [temp_file] exists. *)
Theorem compiled_cleanup_leaves_artifacts
    (w : World K) (language code path command : string) (block_id : option string)
    (fs3 : gset string) (process : completed_process) :
  language ≠ "java" →
  named_temporary_file (files w) (get_file_extension language) = Ok path →
  get_execution_command language path = Some command →
  subprocess_run command (files w ∪ {[path]}) = Ok (fs3, process) →
  let w' := (execute_compiled_code w language code block_id).1 in
  (∀ p, p ∈ fs3 → p ≠ "temp_file" → p ≠ path → p ∈ files w') ∧
  ("temp_file" ∈ fs3 → path ∈ fs3 → path ≠ "temp_file" → path ∈ files w').
Proof.
  intros Hjava Hpath Hcmd Hrun w'.
  assert (Hname : derive_file_name language code = Ok "temp_file").
  { unfold derive_file_name. rewrite bool_decide_eq_false_2 by exact Hjava. reflexivity. }
  destruct (compiled_body_completes w language code "temp_file" path command
              (files w ∪ {[path]}) fs3 process Hname Hpath) as (w3 & Hbody & Hfiles).
  { rewrite bool_decide_eq_false_2 by exact Hjava. reflexivity. }
  { rewrite bool_decide_eq_false_2 by exact Hjava. exact Hcmd. }
  { exact Hrun. }
  unfold w', execute_compiled_code. rewrite Hbody.
  unfold compiled_finally, remove_in_finally, os_remove, path_exists. simpl.
  rewrite Hfiles.
  split.
  - intros p Hp Hne1 Hne2.
    repeat case_match; simplify_eq; simpl; rewrite ?Hfiles; set_solver.
  - intros Htemp Hp Hne.
    rewrite bool_decide_eq_true_2 by exact Htemp. simpl.
    destruct (os_remove_error fs3 "temp_file"); simpl; rewrite ?Hfiles; set_solver.
Qed.

(** C9 (what the code does).  Java code of fewer than three words makes
    [code.split()[2]] raise before [tmp_file_path] is assigned; the
    [except] clause turns that into a pair, and the [finally] clause then
    reads the unassigned variable: the exception leaves the pipeline
    method, and the view's [post] with it. *)
Theorem compiled_pipeline_raises_on_short_java
    (fuel : nat) (w : World K) (code : string) (block_id : option string) :
  code ≠ "" → split code !! 2%nat = None →
  (execute_compiled_code w "java" code block_id).2 = Raise unbound_tmp_file_path ∧
  (post fuel w {| req_code := Some code; req_language := Some "java";
                  req_block_id := block_id; req_execute_in_order := false |}).2
  = Raise unbound_tmp_file_path.
Proof.
  intros Hcode Hsplit.
  assert (Hraise : ∀ w' : World K,
            execute_compiled_code w' "java" code block_id = (w', Raise unbound_tmp_file_path)).
  { intros w'. unfold execute_compiled_code, compiled_body, derive_file_name.
    rewrite bool_decide_eq_true_2 by reflexivity. rewrite Hsplit. reflexivity. }
  split; [rewrite Hraise; reflexivity|].
  unfold post. simpl. rewrite (proj2 (str_truthy_true code) Hcode). simpl.
  unfold execute_code. rewrite bool_decide_eq_true_2 by (vm_compute; set_solver).
  rewrite Hraise. reflexivity.
Qed.

End Compiled.


(** C4 on the demo toolchain: the binary [gcc] wrote next to the temporary
    source is still there after the call has returned its output. *)
Lemma compiled_cleanup_leaves_artifacts_witness :
  let H := Demo.host in
  let r := execute_compiled_code Demo.world0 "c" "int main(){return 0;}" None in
  r.2 = Return (Success "hi") ∧ "/tmp/tmp0.c.out" ∈ files r.1.
Proof.
  intros H r. split; [vm_compute; reflexivity|].
  apply (proj1 (compiled_cleanup_leaves_artifacts (HK := H) Demo.world0
        "c" "int main(){return 0;}" "/tmp/tmp0.c"
        "gcc /tmp/tmp0.c -o /tmp/tmp0.c.out && /tmp/tmp0.c.out" None
        {["/tmp/tmp0.c"; "/tmp/tmp0.c.out"]}
        {| returncode := 0; stdout := "hi"; stderr := "" |}
        ltac:(discriminate) ltac:(reflexivity) ltac:(vm_compute; reflexivity)
        ltac:(vm_compute; reflexivity))).
  - set_solver.
  - discriminate.
  - discriminate.
Defined.

(** C9 on [class A{}], which has two words. *)
Lemma compiled_pipeline_raises_on_short_java_witness :
  let H := Demo.host in
  (execute_compiled_code Demo.world0 "java" "class A{}" (Some "b1")).2
    = Raise unbound_tmp_file_path ∧
  (post 9 Demo.world0 {| req_code := Some "class A{}"; req_language := Some "java";
                         req_block_id := Some "b1"; req_execute_in_order := false |}).2
    = Raise unbound_tmp_file_path.
Proof.
  intros H.
  apply (compiled_pipeline_raises_on_short_java (HK := H) 9 Demo.world0 "class A{}"
           (Some "b1") ltac:(discriminate) ltac:(reflexivity)).
Defined.

(** ** Unsupported languages *)

Section Unsupported.
Context {K : Type} {HK : Host K}.

Lemma jupyter_unsupported fuel (w : World K) (L program : string) block_id :
  get_kernel_name L = None →
  execute_code_with_jupyter fuel w L program block_id
  = (w, Return (Failure (unsupported_language L))).
Proof. intros Hk. unfold execute_code_with_jupyter. rewrite Hk. reflexivity. Qed.

Lemma execute_code_unsupported fuel (w : World K) (L program : string) block_id :
  L ∉ configured_languages →
  (execute_code fuel w L program block_id).2 = Return (Failure (unsupported_language L)).
Proof.
  intros Hn. unfold execute_code.
  rewrite bool_decide_eq_false_2 by (by apply unconfigured_not_compiled).
  rewrite bool_decide_eq_false_2 by (by apply unconfigured_not_markup).
  rewrite jupyter_unsupported by (by apply unconfigured_no_kernel). reflexivity.
Qed.

(** C8.  A request that names a language outside the configured set is
    answered with the error [Unsupported language: L], ordered or not; it
    is the pair [execute_code] returns for that language whatever the
    code, the Jupyter pipeline returning it before it touches any kernel,
    and the compiled pipeline returns the same pair when it is called with
    such a language, gets its temporary file and can remove it. *)
Theorem unsupported_language_is_named
    (fuel : nat) (w : World K) (L code : string) (block_id : option string)
    (in_order : bool) :
  L ≠ "" → code ≠ "" → L ∉ configured_languages →
  (post fuel w {| req_code := Some code; req_language := Some L;
                  req_block_id := block_id; req_execute_in_order := in_order |}).2
  = Return {| resp_body := ErrorBody (unsupported_language L); resp_status := 500 |} ∧
  (∀ program,
     (execute_code fuel w L program block_id).2
     = Return (Failure (unsupported_language L))) ∧
  (∀ program,
     execute_code_with_jupyter fuel w L program block_id
     = (w, Return (Failure (unsupported_language L)))) ∧
  (∀ program path,
     named_temporary_file (files w) (get_file_extension L) = Ok path →
     (∀ p, os_remove_error (files w ∪ {[path]}) p = None) →
     (execute_compiled_code w L program block_id).2
     = Return (Failure (unsupported_language L))).
Proof.
  intros HL Hcode Hn. split; [|split; [|split]].
  - unfold post. simpl.
    rewrite (proj2 (str_truthy_true code) Hcode), (proj2 (str_truthy_true L) HL). simpl.
    destruct in_order.
    + pose proof (execute_code_unsupported fuel
        (set_code_sessions (ledger_append L code (code_sessions w)) w) L
        (join nl (ledger (set_code_sessions (ledger_append L code (code_sessions w)) w) L))
        block_id Hn) as He.
      destruct (execute_code _ _ _ _ _) as [w1 r]. simpl in He. subst r. simpl.
      unfold unsupported_language at 1. simpl. reflexivity.
    + pose proof (execute_code_unsupported fuel w L code block_id Hn) as He.
      destruct (execute_code _ _ _ _ _) as [w1 r]. simpl in He. subst r. simpl.
      unfold unsupported_language at 1. simpl. reflexivity.
  - intros program. by apply execute_code_unsupported.
  - intros program. apply jupyter_unsupported. by apply unconfigured_no_kernel.
  - intros program path Hpath Hrm.
    assert (Hjava : L ≠ "java").
    { intros ->. apply Hn. vm_compute. set_solver. }
    unfold execute_compiled_code, compiled_body, derive_file_name.
    rewrite bool_decide_eq_false_2 by exact Hjava. rewrite Hpath. simpl.
    rewrite no_command_outside_compiled by (by apply unconfigured_not_compiled).
    apply compiled_finally_returns. exact Hrm.
Qed.

End Unsupported.

(** C8 for [ruby]. *)
Lemma unsupported_language_is_named_witness :
  let H := Demo.host in
  (post 9 Demo.world0 (ordered "ruby" "puts 1" (Some "b1"))).2
  = Return {| resp_body := ErrorBody "Unsupported language: ruby"; resp_status := 500 |}.
Proof.
  intros H.
  apply (proj1 (unsupported_language_is_named (HK := H) 9 Demo.world0 "ruby" "puts 1"
                  (Some "b1") true ltac:(discriminate) ltac:(discriminate)
                  ltac:(compute_done))).
Defined.

(** ** The batch view *)

Section Batch.
Context {K : Type} {HK : Host K}.

(** A block without code or without id leaves the world and the results
    as they are. *)
Lemma run_blocks_skips_incomplete fuel (w : World K) language b rest acc :
  truthy (blk_code b) = false ∨ truthy (blk_block_id b) = false →
  run_blocks fuel w language (b :: rest) acc = run_blocks fuel w language rest acc.
Proof. intros [Hb|Hb]; simpl; rewrite Hb; simpl; rewrite ?orb_true_r; reflexivity. Qed.

(** A block whose pipeline returns a pair gets its entry, and the loop
    goes on with the next block. *)
Lemma run_blocks_records_pair fuel (w w1 : World K) language block_id code rest acc
    (result error : option string) :
  code ≠ "" → block_id ≠ "" →
  execute_code fuel w language code (Some block_id) = (w1, Return (result, error)) →
  run_blocks fuel w language
    ({| blk_block_id := Some block_id; blk_code := Some code |} :: rest) acc
  = run_blocks fuel w1 language rest
      (<[block_id := if truthy error then ErrorBody (default "" error)
                     else OutputBody result]> acc).
Proof.
  intros Hc Hb He. simpl.
  rewrite (proj2 (str_truthy_true code) Hc), (proj2 (str_truthy_true block_id) Hb).
  simpl. rewrite He. destruct (truthy error); reflexivity.
Qed.

(** [post] hands on the error of a pair when it is a non-empty string;
    a pair whose error is the empty string is answered as an output. *)
Lemma post_passes_error_on fuel (w w1 : World K) (L code error : string)
    (block_id result : option string) :
  L ≠ "" → code ≠ "" → error ≠ "" →
  execute_code fuel w L code block_id = (w1, Return (result, Some error)) →
  post fuel w {| req_code := Some code; req_language := Some L;
                 req_block_id := block_id; req_execute_in_order := false |}
  = (w1, Return {| resp_body := ErrorBody error; resp_status := 500 |}).
Proof.
  intros HL Hc He Hx. unfold post. simpl.
  rewrite (proj2 (str_truthy_true code) Hc), (proj2 (str_truthy_true L) HL). simpl.
  rewrite Hx. simpl. rewrite (proj2 (str_truthy_true error) He). reflexivity.
Qed.

Lemma post_empty_error_is_output fuel (w w1 : World K) (L code : string)
    (block_id result : option string) :
  L ≠ "" → code ≠ "" →
  execute_code fuel w L code block_id = (w1, Return (result, Some "")) →
  post fuel w {| req_code := Some code; req_language := Some L;
                 req_block_id := block_id; req_execute_in_order := false |}
  = (w1, Return {| resp_body := OutputBody result; resp_status := 200 |}).
Proof.
  intros HL Hc Hx. unfold post. simpl.
  rewrite (proj2 (str_truthy_true code) Hc), (proj2 (str_truthy_true L) HL). simpl.
  rewrite Hx. reflexivity.
Qed.

(** C6 (what the code does).  The loop has no handler of its own: when the
    pipeline of one block raises (Java code of fewer than three words),
    the exception ends the loop and the view; neither the results gathered
    so far nor the blocks that follow are answered. *)
Theorem batch_aborts_when_block_raises
    (fuel : nat) (w : World K) (block_id code : string) (rest : list block)
    (acc : gmap string body) :
  code ≠ "" → block_id ≠ "" → split code !! 2%nat = None →
  let bad := {| blk_block_id := Some block_id; blk_code := Some code |} in
  (run_blocks fuel w "java" (bad :: rest) acc).2 = Raise unbound_tmp_file_path ∧
  (post_all fuel w {| bat_code_blocks := bad :: rest; bat_language := Some "java" |}).2
  = Raise unbound_tmp_file_path.
Proof.
  intros Hc Hb Hsplit bad.
  assert (Hrun : ∀ acc', (run_blocks fuel w "java" (bad :: rest) acc').2
                         = Raise unbound_tmp_file_path).
  { intros acc'. simpl.
    rewrite (proj2 (str_truthy_true code) Hc), (proj2 (str_truthy_true block_id) Hb).
    simpl. unfold execute_code.
    rewrite bool_decide_eq_true_2 by (vm_compute; set_solver).
    unfold execute_compiled_code, compiled_body, derive_file_name.
    rewrite bool_decide_eq_true_2 by reflexivity. rewrite Hsplit. reflexivity. }
  split; [apply Hrun|].
  specialize (Hrun ∅).
  unfold post_all. cbn [bat_code_blocks bat_language truthy str_truthy].
  change (default "" (Some "java")) with "java".
  destruct (run_blocks fuel w "java" (bad :: rest) ∅) as [w1 r].
  cbn [snd] in *. rewrite Hrun. reflexivity.
Qed.

End Batch.

(** C6 on a batch of two Java blocks: the first has two words, the second
    is never run. *)
Lemma batch_aborts_when_block_raises_witness :
  let H := Demo.host in
  (post_all 9 Demo.world0
     {| bat_code_blocks :=
          [ {| blk_block_id := Some "b1"; blk_code := Some "class A{}" |};
            {| blk_block_id := Some "b2"; blk_code := Some "public class Main {}" |} ];
        bat_language := Some "java" |}).2
  = Raise unbound_tmp_file_path.
Proof.
  intros H.
  apply (proj2 (batch_aborts_when_block_raises (HK := H) 9 Demo.world0 "b1" "class A{}"
                  [ {| blk_block_id := Some "b2"; blk_code := Some "public class Main {}" |} ]
                  ∅ ltac:(discriminate) ltac:(discriminate) ltac:(reflexivity))).
Defined.

(** ** The Jupyter pipeline: reply, drain, timeouts *)

Section Interactive.
Context {K : Type} {HK : Host K}.

(** Messages the loop reads past cost one unit of fuel each and add their
    fragments. *)
Lemma drain_passes (ms : list iopub_msg) :
  ∀ (k k' : K) (acc : list string) (fuel : nat),
    iopub_reads k (Got <$> ms) k' →
    Forall (λ m, passes m = true) ms →
    drain (length ms + fuel) k acc = drain fuel k' (acc ++ concat (fragments <$> ms)).
Proof.
  induction ms as [|m ms IH]; intros k k' acc fuel Hreads Hpass.
  - inversion Hreads; subst. simpl. rewrite app_nil_r. reflexivity.
  - inversion Hreads as [|? k1 ? ? ? Hread Hrest]; subst.
    inversion Hpass as [|? ? Hm Hms]; subst.
    cbn [length Nat.add drain]. rewrite Hread.
    destruct m as [tp|tx|tb|[st|]|ty]; simpl in Hm; try discriminate.
    + rewrite (IH k1 k' _ fuel Hrest Hms). cbn [fmap list_fmap concat fragments].
      rewrite <- app_assoc. reflexivity.
    + rewrite (IH k1 k' _ fuel Hrest Hms). cbn [fmap list_fmap concat fragments].
      rewrite <- app_assoc. reflexivity.
    + rewrite bool_decide_eq_false_2.
      * rewrite (IH k1 k' _ fuel Hrest Hms). reflexivity.
      * intros ->. rewrite bool_decide_eq_true_2 in Hm by reflexivity. discriminate.
    + rewrite (IH k1 k' _ fuel Hrest Hms). reflexivity.
Qed.

(** The same with any fuel above the number of messages. *)
Lemma drain_passes_lt (ms : list iopub_msg) (k k' : K) (acc : list string) (fuel : nat) :
  iopub_reads k (Got <$> ms) k' →
  Forall (λ m, passes m = true) ms →
  length ms < fuel →
  ∃ fuel', drain fuel k acc = drain (S fuel') k' (acc ++ concat (fragments <$> ms)).
Proof.
  intros Hreads Hpass Hlt. exists (fuel - S (length ms)).
  rewrite <- (drain_passes ms k k' acc _ Hreads Hpass). f_equal. lia.
Qed.

(** What [exchange] does once the shell reply says [ok]: it drains. *)
Lemma exchange_ok fuel (k k1 k2 : K) (code : string) (reply : shell_reply)
    (c : reply_content) :
  kc_execute k code = (k1, None) →
  kc_get_shell_msg k1 10 = (k2, Got reply) →
  content reply = Some c → status c = Some "ok" →
  exchange fuel k code =
    let '(k3, s) := drain fuel k2 [] in
    (k3, match s with
         | SReturn p => Return p
         | SEmpty => Return (Failure timeout_message)
         | SExn e => Return (Failure e)
         | SFuel => OutOfFuel
         end).
Proof.
  intros Hexec Hshell Hcontent Hstatus. unfold exchange.
  rewrite Hexec, Hshell, Hcontent, Hstatus.
  rewrite bool_decide_eq_true_2 by reflexivity.
  destruct (drain fuel k2 []) as [k3 s]. destruct s; reflexivity.
Qed.

(** The pipeline on the client that serves the language: the pair is the
    one of the exchange, and the client is pooled in the state the exchange
    left it in. *)
Lemma jupyter_runs_exchange fuel (w : World K) (L code : string) block_id (k : K) :
  serves w L k →
  let out := execute_code_with_jupyter fuel w L code block_id in
  out.2 = (exchange fuel k code).2 ∧
  ∃ e, kernels out.1 !! L = Some e ∧ kc e = (exchange fuel k code).1.
Proof.
  intros (name & Hname & Hk). unfold execute_code_with_jupyter. rewrite Hname.
  destruct (kernels w !! L) as [entry|] eqn:Hpool.
  - subst k. destruct (exchange fuel (kc entry) code) as [k' r]. simpl.
    split; [reflexivity|]. eexists. rewrite lookup_insert_eq. split; reflexivity.
  - rewrite Hk. destruct (exchange fuel k code) as [k' r]. simpl.
    split; [reflexivity|]. eexists. rewrite lookup_insert_eq. split; reflexivity.
Qed.

(** The exchange with a kernel never lets an exception out: the two
    [except] clauses turn each one into a pair. *)
Lemma exchange_never_raises fuel (k : K) (code : string) (e : string) :
  (exchange fuel k code).2 ≠ Raise e.
Proof.
  unfold exchange. destruct (kc_execute k code) as [k1 [msg|]]; [discriminate|].
  destruct (kc_get_shell_msg k1 10) as [k2 [reply| |msg]]; try discriminate.
  destruct (content reply) as [c|]; [|discriminate].
  destruct (status c) as [st|]; [|discriminate].
  case_bool_decide; [|discriminate].
  destruct (drain fuel k2 []) as [k3 [p| |msg|]]; discriminate.
Qed.

Lemma jupyter_never_raises fuel (w : World K) (L code : string) block_id (e : string) :
  (execute_code_with_jupyter fuel w L code block_id).2 ≠ Raise e.
Proof.
  unfold execute_code_with_jupyter.
  destruct (get_kernel_name L) as [name|]; [|discriminate].
  destruct (kernels w !! L) as [entry|].
  - pose proof (exchange_never_raises fuel (kc entry) code e) as Hx.
    destruct (exchange fuel (kc entry) code) as [k' r]. exact Hx.
  - destruct (start_kernel name) as [k0|msg]; [|discriminate].
    pose proof (exchange_never_raises fuel k0 code e) as Hx.
    destruct (exchange fuel k0 code) as [k' r]. exact Hx.
Qed.

Lemma html_css_never_raises (w : World K) (code : string) (e : string) :
  (execute_html_css w code).2 ≠ Raise e.
Proof.
  unfold execute_html_css.
  destruct (named_temporary_file (files w) ".html") as [path|msg]; [|discriminate].
  destruct (subprocess_run _ _) as [[fs2 p]|msg]; discriminate.
Qed.

(** C2 (as the code has it).  When the shell reply has status [ok], the
    loop reads the iopub channel up to the first idle status or error
    message: the [text/plain] of each [execute_result] and the [text] of
    each [stream] message read before it are the fragments.  An error
    message ends the call at once with the newline-joined traceback as the
    error; an idle status ends it with the newline join of the fragments
    as the result, or with the placeholder when that join is the empty
    string.  In both cases the client is left right after that message. *)
Theorem drain_collects_until_idle_or_error
    (fuel : nat) (w : World K) (L code : string) (block_id : option string)
    (k k1 k2 k3 k4 : K) (reply : shell_reply) (c : reply_content)
    (ms : list iopub_msg) (last : iopub_msg) :
  serves w L k →
  kc_execute k code = (k1, None) →
  kc_get_shell_msg k1 10 = (k2, Got reply) →
  content reply = Some c → status c = Some "ok" →
  iopub_reads k2 (Got <$> ms) k3 →
  Forall (λ m, passes m = true) ms →
  kc_get_iopub_msg k3 10 = (k4, Got last) →
  length ms < fuel →
  let out := execute_code_with_jupyter fuel w L code block_id in
  let joined := join nl (concat (fragments <$> ms)) in
  (last = idle →
   out.2 = Return (Success (if str_truthy joined then joined else placeholder)) ∧
   kc <$> kernels out.1 !! L = Some k4) ∧
  (∀ traceback, last = Error traceback →
   out.2 = Return (Failure (join nl (default [] traceback))) ∧
   kc <$> kernels out.1 !! L = Some k4).
Proof.
  intros Hserves Hexec Hshell Hcontent Hstatus Hreads Hpass Hlast Hfuel out joined.
  destruct (jupyter_runs_exchange fuel w L code block_id k Hserves) as (Hout & e & He & Hkc).
  fold out in Hout, He.
  rewrite (exchange_ok fuel k k1 k2 code reply c Hexec Hshell Hcontent Hstatus) in Hout, Hkc.
  destruct (drain_passes_lt ms k2 k3 [] fuel Hreads Hpass Hfuel) as (fuel' & Hdrain).
  rewrite Hdrain in Hout, Hkc. cbn [drain app] in Hout, Hkc. rewrite Hlast in Hout, Hkc.
  split.
  - intros ->. unfold idle in Hout, Hkc.
    rewrite bool_decide_eq_true_2 in Hout, Hkc by reflexivity.
    split; [exact Hout|]. rewrite He. simpl. rewrite Hkc. reflexivity.
  - intros traceback ->. split; [exact Hout|]. rewrite He. simpl. rewrite Hkc. reflexivity.
Qed.

(** C7.  When the read of the shell channel finds nothing within its bound,
    and when the shell reply says [ok] and some read of the iopub channel
    that the loop gets to (after messages it reads past) finds nothing
    within its bound, the call returns the execution-timeout error. *)
Theorem interactive_timeout_is_reported
    (fuel : nat) (w : World K) (L code : string) (block_id : option string)
    (k k1 : K) :
  serves w L k →
  kc_execute k code = (k1, None) →
  let out := execute_code_with_jupyter fuel w L code block_id in
  (∀ k2, kc_get_shell_msg k1 10 = (k2, Empty) →
         out.2 = Return (Failure timeout_message)) ∧
  (∀ k2 k3 k4 reply c ms,
     kc_get_shell_msg k1 10 = (k2, Got reply) →
     content reply = Some c → status c = Some "ok" →
     iopub_reads k2 (Got <$> ms) k3 →
     Forall (λ m, passes m = true) ms →
     kc_get_iopub_msg k3 10 = (k4, Empty) →
     length ms < fuel →
     out.2 = Return (Failure timeout_message)).
Proof.
  intros Hserves Hexec out.
  destruct (jupyter_runs_exchange fuel w L code block_id k Hserves) as (Hout & _).
  fold out in Hout. split.
  - intros k2 Hshell. rewrite Hout. unfold exchange. rewrite Hexec, Hshell. reflexivity.
  - intros k2 k3 k4 reply c ms Hshell Hcontent Hstatus Hreads Hpass Hlast Hfuel.
    rewrite Hout, (exchange_ok fuel k k1 k2 code reply c Hexec Hshell Hcontent Hstatus).
    destruct (drain_passes_lt ms k2 k3 [] fuel Hreads Hpass Hfuel) as (fuel' & ->).
    cbn [drain]. rewrite Hlast. reflexivity.
Qed.

End Interactive.

(** C2 on the toy kernel: [1 + 1] answers [2] before it goes idle; [warn()]
    sends an error message between two stream messages, and the second
    stream message is never read. *)
Lemma drain_collects_until_idle_or_error_witness :
  let H := Demo.host in
  (execute_code_with_jupyter 9 Demo.world0 "python" "1 + 1" None).2
    = Return (Success "2") ∧
  (let out := execute_code_with_jupyter 9 Demo.world0 "python" "warn()" None in
   out.2 = Return (Failure ("Traceback" +:+ nl +:+ "RuntimeWarning")) ∧
   Queues.iopub <$> (kc <$> kernels out.1 !! "python")
     = Some [Got (Stream (Some "after")); Got idle]).
Proof.
  intros H. split.
  - eapply (λ k k1 k2 k3 k4 reply c H1 H2 H3 H4 H5 H6 H7 H8 H9,
             proj1 (proj1 (drain_collects_until_idle_or_error (HK := H) 9 Demo.world0
               "python" "1 + 1" None k k1 k2 k3 k4 reply c
               [busy; ExecuteResult (Some "2")] idle H1 H2 H3 H4 H5 H6 H7 H8 H9) eq_refl)).
    + exists "python3". split; reflexivity.
    + reflexivity.
    + reflexivity.
    + reflexivity.
    + reflexivity.
    + eapply iopub_reads_cons; [reflexivity|].
      eapply iopub_reads_cons; [reflexivity|]. apply iopub_reads_nil.
    + repeat constructor.
    + reflexivity.
    + simpl. lia.
  - intros out.
    pose proof (λ k k1 k2 k3 k4 reply c H1 H2 H3 H4 H5 H6 H7 H8 H9,
             proj2 (drain_collects_until_idle_or_error (HK := H) 9 Demo.world0
               "python" "warn()" None k k1 k2 k3 k4 reply c
               [busy; Stream (Some "before")] (Error (Some ["Traceback"; "RuntimeWarning"]))
               H1 H2 H3 H4 H5 H6 H7 H8 H9) (Some ["Traceback"; "RuntimeWarning"]) eq_refl)
      as Hthm.
    edestruct Hthm as [Hr Hk].
    + exists "python3". split; reflexivity.
    + reflexivity.
    + reflexivity.
    + reflexivity.
    + reflexivity.
    + eapply iopub_reads_cons; [reflexivity|].
      eapply iopub_reads_cons; [reflexivity|]. apply iopub_reads_nil.
    + repeat constructor.
    + reflexivity.
    + simpl. lia.
    + split; [exact Hr|]. fold out in Hk. rewrite Hk. reflexivity.
Defined.

(** C2 as worded fails when the only fragment is empty: [display()] sends
    an [execute_result] without [text/plain], one fragment is collected,
    and the call returns the placeholder, not the join of the fragments. *)
Lemma drain_empty_fragment_counterexample :
  let H := Demo.host in
  let collected := concat (fragments <$> [busy; ExecuteResult None]) in
  collected = [""] ∧
  (execute_code_with_jupyter 9 Demo.world0 "python" "display()" None).2
    = Return (Success placeholder) ∧
  (execute_code_with_jupyter 9 Demo.world0 "python" "display()" None).2
    ≠ Return (claimed_result collected).
Proof.
  intros H collected. split; [reflexivity|]. split; [vm_compute; reflexivity|].
  vm_compute. discriminate.
Qed.

(** C7 on the toy kernel: the sleeping code gets no reply within the bound;
    the code that prints and then sleeps is replied to, but the third read
    of the iopub channel finds nothing. *)
Lemma interactive_timeout_is_reported_witness :
  let H := Demo.host in
  (execute_code_with_jupyter 9 Demo.world0 "python" "import time; time.sleep(60)" None).2
    = Return (Failure timeout_message) ∧
  (execute_code_with_jupyter 9 Demo.world0 "python" "print(1); time.sleep(60)" None).2
    = Return (Failure timeout_message).
Proof.
  intros H. split.
  - eapply (λ k k1 k2 H1 H2 H3,
             proj1 (interactive_timeout_is_reported (HK := H) 9 Demo.world0 "python"
                      "import time; time.sleep(60)" None k k1 H1 H2) k2 H3).
    + exists "python3". split; reflexivity.
    + reflexivity.
    + reflexivity.
  - eapply (λ k k1 k2 k3 k4 reply c H1 H2 H3 H4 H5 H6 H7 H8 H9,
             proj2 (interactive_timeout_is_reported (HK := H) 9 Demo.world0 "python"
                      "print(1); time.sleep(60)" None k k1 H1 H2)
                   k2 k3 k4 reply c [busy; Stream (Some "1")] H3 H4 H5 H6 H7 H8 H9).
    + exists "python3". split; reflexivity.
    + reflexivity.
    + reflexivity.
    + reflexivity.
    + reflexivity.
    + eapply iopub_reads_cons; [reflexivity|].
      eapply iopub_reads_cons; [reflexivity|]. apply iopub_reads_nil.
    + repeat constructor.
    + reflexivity.
    + simpl. lia.
Defined.

(** ** The pool of kernels *)

Section Pool.
Context {K : Type} {HK : Host K}.

Lemma pool_step_same (w w' : World K) :
  kernels w' = kernels w → started w' = started w → pool_step w w'.
Proof.
  intros Hk Hs. split.
  - intros L e He. exists e. rewrite Hk. split; [exact He|reflexivity].
  - unfold pool_inv. rewrite Hk, Hs. tauto.
Qed.

Lemma pool_step_refl (w : World K) : pool_step w w.
Proof. by apply pool_step_same. Qed.

Lemma pool_step_trans (w1 w2 w3 : World K) :
  pool_step w1 w2 → pool_step w2 w3 → pool_step w1 w3.
Proof.
  intros [Hk12 Hi12] [Hk23 Hi23]. split; [|tauto].
  intros L e He. destruct (Hk12 L e He) as (e2 & He2 & Hid2).
  destruct (Hk23 L e2 He2) as (e3 & He3 & Hid3).
  exists e3. split; [exact He3|congruence].
Qed.

(** Starting the kernel of a language that has none. *)
Lemma pool_step_start (w : World K) (L name : string) (k' : K) :
  kernels w !! L = None → get_kernel_name L = Some name →
  pool_step w
    (set_kernels (<[L := Build_kernel (length (started w)) k']> (kernels w))
       (set_started (started w ++ [L]) w)).
Proof.
  intros Hnone Hname. split.
  - intros L' e He. simpl. destruct (decide (L' = L)) as [->|Hne]; [congruence|].
    exists e. rewrite lookup_insert_ne by congruence. split; [exact He|reflexivity].
  - intros (Hnodup & Hpooled & Hstarted). unfold pool_inv. simpl. split; [|split].
    + apply NoDup_app. split; [exact Hnodup|]. split; [|apply NoDup_singleton].
      intros x Hx Hx'. apply list_elem_of_singleton in Hx'. subst x.
      destruct (Hstarted L Hx) as [e He]. congruence.
    + intros L' e. destruct (decide (L' = L)) as [->|Hne].
      * rewrite lookup_insert_eq. intros [= <-]. simpl.
        split; [|by eexists]. rewrite lookup_app_r by lia.
        rewrite Nat.sub_diag. reflexivity.
      * rewrite lookup_insert_ne by congruence. intros He.
        destruct (Hpooled L' e He) as [Hat Hsome]. split; [|exact Hsome].
        rewrite lookup_app_l; [exact Hat|]. by eapply lookup_lt_Some.
    + intros L' Hin. apply elem_of_app in Hin as [Hin|Hin].
      * destruct (decide (L' = L)) as [->|Hne].
        -- rewrite lookup_insert_eq. by eexists.
        -- rewrite lookup_insert_ne by congruence. by apply Hstarted.
      * apply list_elem_of_singleton in Hin. subst L'. rewrite lookup_insert_eq. by eexists.
Qed.

(** Talking to the pooled kernel: the entry keeps its identity. *)
Lemma pool_step_reuse (w : World K) (L : string) (entry : kernel K) (k' : K) :
  kernels w !! L = Some entry →
  pool_step w (set_kernels (<[L := Build_kernel (kid entry) k']> (kernels w)) w).
Proof.
  intros Hsome. split.
  - intros L' e He. simpl. destruct (decide (L' = L)) as [->|Hne].
    + rewrite lookup_insert_eq. eexists. split; [reflexivity|]. simpl. congruence.
    + exists e. rewrite lookup_insert_ne by congruence. split; [exact He|reflexivity].
  - intros (Hnodup & Hpooled & Hstarted). unfold pool_inv. simpl. split; [exact Hnodup|split].
    + intros L' e. destruct (decide (L' = L)) as [->|Hne].
      * rewrite lookup_insert_eq. intros [= <-]. simpl. by apply Hpooled.
      * rewrite lookup_insert_ne by congruence. by apply Hpooled.
    + intros L' Hin. destruct (decide (L' = L)) as [->|Hne].
      * rewrite lookup_insert_eq. by eexists.
      * rewrite lookup_insert_ne by congruence. by apply Hstarted.
Qed.

Lemma jupyter_pool_step fuel (w : World K) (L code : string) block_id :
  pool_step w (execute_code_with_jupyter fuel w L code block_id).1.
Proof.
  unfold execute_code_with_jupyter.
  destruct (get_kernel_name L) as [name|] eqn:Hname; [|apply pool_step_refl].
  destruct (kernels w !! L) as [entry|] eqn:Hpool.
  - destruct (exchange fuel (kc entry) code) as [k' r]. simpl. by apply pool_step_reuse.
  - destruct (start_kernel name) as [k0|e]; [|apply pool_step_refl].
    destruct (exchange fuel k0 code) as [k' r]. simpl. by eapply pool_step_start.
Qed.

Lemma execute_code_pool_step fuel (w : World K) (L code : string) block_id :
  pool_step w (execute_code fuel w L code block_id).1.
Proof.
  unfold execute_code.
  apply (pool_step_trans w (log_dispatch L code w)); [by apply pool_step_same|].
  repeat case_bool_decide.
  - pose proof (execute_compiled_code_frame (log_dispatch L code w) L code block_id) as Hf.
    simpl in Hf. apply pool_step_same; tauto.
  - pose proof (execute_html_css_frame (log_dispatch L code w) code) as Hf.
    simpl in Hf. apply pool_step_same; tauto.
  - apply jupyter_pool_step.
Qed.

Lemma post_pool_step fuel (w : World K) (req : request) :
  pool_step w (post fuel w req).1.
Proof.
  rewrite post_world.
  destruct (negb (truthy (req_code req)) || negb (truthy (req_language req)));
    [apply pool_step_refl|].
  cbv zeta. destruct (req_execute_in_order req).
  - eapply pool_step_trans; [|apply execute_code_pool_step]. by apply pool_step_same.
  - apply execute_code_pool_step.
Qed.

Lemma run_blocks_pool_step fuel (w : World K) language blocks acc :
  pool_step w (run_blocks fuel w language blocks acc).1.
Proof.
  revert w acc. induction blocks as [|b rest IH]; intros w acc; simpl;
    [apply pool_step_refl|].
  destruct (negb (truthy (blk_code b)) || negb (truthy (blk_block_id b))); [apply IH|].
  pose proof (execute_code_pool_step fuel w language (default "" (blk_code b))
                (Some (default "" (blk_block_id b)))) as Hstep.
  destruct (execute_code _ _ _ _ _) as [w1 [[result error]| |]]; simpl in *;
    [|exact Hstep..].
  eapply pool_step_trans; [exact Hstep|apply IH].
Qed.

Lemma post_all_pool_step fuel (w : World K) (req : batch_request) :
  pool_step w (post_all fuel w req).1.
Proof.
  unfold post_all. destruct (bat_code_blocks req) as [|b rest]; [apply pool_step_refl|].
  destruct (truthy (bat_language req)); [|apply pool_step_refl].
  pose proof (run_blocks_pool_step fuel w (default "" (bat_language req)) (b :: rest) ∅)
    as Hstep.
  destruct (run_blocks _ _ _ _ _) as [w1 r]. exact Hstep.
Qed.

Lemma run_call_pool_step (c : call) (w : World K) : pool_step w (run_call c w).
Proof. destruct c; simpl; [apply post_pool_step|apply post_all_pool_step]. Qed.

Lemma initial_pool_inv (fs : gset string) : pool_inv (initial_world fs : World K).
Proof.
  unfold pool_inv, initial_world. simpl. split; [apply NoDup_nil_2|]. split.
  - intros L e. rewrite lookup_empty. discriminate.
  - intros L Hin. by apply not_elem_of_nil in Hin.
Qed.

Lemma reachable_pool_inv (w : World K) : reachable w → pool_inv w.
Proof.
  induction 1 as [fs|w c _ IH]; [apply initial_pool_inv|].
  by apply (run_call_pool_step c w).
Qed.

(** C5.  In every world the process can reach, no language has had two
    kernels started and the pool holds exactly the kernels started.  Any
    further request, whatever its result, leaves each pooled kernel in the
    pool under its language, the same object.  The Jupyter pipeline starts
    a kernel only when the pool has none for the language, and pools it;
    when the pool has one the pipeline starts nothing and runs its
    exchange on the pooled client, in the state the earlier calls left. *)
Theorem pool_keeps_one_kernel_per_language (w : World K) :
  reachable w →
  (NoDup (started w) ∧
   (∀ L, L ∈ started w ↔ is_Some (kernels w !! L)) ∧
   (∀ L e, kernels w !! L = Some e → started w !! kid e = Some L)) ∧
  (∀ c L e, kernels w !! L = Some e →
            ∃ e', kernels (run_call c w) !! L = Some e' ∧ kid e' = kid e) ∧
  (∀ fuel L code block_id name k0,
     kernels w !! L = None → get_kernel_name L = Some name →
     start_kernel name = Ok k0 →
     let out := execute_code_with_jupyter fuel w L code block_id in
     started out.1 = started w ++ [L] ∧
     kernels out.1 !! L = Some {| kid := length (started w);
                                  kc := (exchange fuel k0 code).1 |} ∧
     out.2 = (exchange fuel k0 code).2) ∧
  (∀ fuel L code block_id e,
     kernels w !! L = Some e →
     let out := execute_code_with_jupyter fuel w L code block_id in
     started out.1 = started w ∧
     kernels out.1 !! L = Some {| kid := kid e; kc := (exchange fuel (kc e) code).1 |} ∧
     out.2 = (exchange fuel (kc e) code).2).
Proof.
  intros Hreach. pose proof (reachable_pool_inv w Hreach) as (Hnodup & Hpooled & Hstarted).
  split; [|split; [|split]].
  - split; [exact Hnodup|]. split.
    + intros L. split; [apply Hstarted|]. intros [e He].
      apply list_elem_of_lookup. exists (kid e). by apply Hpooled.
    + intros L e He. by apply Hpooled.
  - intros c L e He. by apply (run_call_pool_step c w).
  - intros fuel L code block_id name k0 Hnone Hname Hstart out.
    unfold out, execute_code_with_jupyter. rewrite Hname, Hnone, Hstart.
    destruct (exchange fuel k0 code) as [k' r]. simpl.
    rewrite lookup_insert_eq. done.
  - intros fuel L code block_id e He out.
    destruct (Hpooled L e He) as [_ [name Hname]].
    unfold out, execute_code_with_jupyter. rewrite Hname, He.
    destruct (exchange fuel (kc e) code) as [k' r]. simpl.
    rewrite lookup_insert_eq. done.
Qed.

End Pool.

(** C5 on the toy kernel: after [x = 5] the pool holds the one Python kernel
    started, and [print(x)] in a second request runs on it and prints 5. *)
Lemma pool_keeps_one_kernel_per_language_witness :
  let H := Demo.host in
  let w1 := run_call (CallPost 9 {| req_code := Some "x = 5"; req_language := Some "python";
                                    req_block_id := Some "b1";
                                    req_execute_in_order := false |}) Demo.world0 in
  let r2 := post 9 w1 {| req_code := Some "print(x)"; req_language := Some "python";
                         req_block_id := Some "b2"; req_execute_in_order := false |} in
  started w1 = ["python"] ∧ NoDup (started w1) ∧
  r2.2 = Return {| resp_body := OutputBody (Some "5"); resp_status := 200 |} ∧
  started r2.1 = ["python"].
Proof.
  intros H w1 r2.
  split; [vm_compute; reflexivity|].
  split; [|split; vm_compute; reflexivity].
  apply (pool_keeps_one_kernel_per_language (HK := H) w1).
  apply reachable_call. apply reachable_initial.
Defined.

(** ** More on the string helpers and the command table *)

Lemma has_space_app (s t : string) :
  has_space (s +:+ t) = has_space s || has_space t.
Proof.
  induction s as [|c s IH]; simpl; [reflexivity|].
  rewrite IH, orb_assoc. reflexivity.
Qed.

Lemma split_from_words (s : string) :
  ∀ tok, has_space tok = false →
         Forall (λ t, t ≠ "" ∧ has_space t = false) (split_from tok s).
Proof.
  induction s as [|c s IH]; intros tok Htok; simpl.
  - destruct (str_truthy tok) eqn:Ht; [|constructor].
    constructor; [|constructor]. split; [by apply str_truthy_true|exact Htok].
  - destruct (is_space c) eqn:Hc.
    + destruct (str_truthy tok) eqn:Ht; [|by apply IH].
      constructor; [|by apply IH]. split; [by apply str_truthy_true|exact Htok].
    + apply IH. rewrite has_space_app, Htok. simpl. rewrite Hc. reflexivity.
Qed.

(** X1.  [code.split()] gives words: no word is empty and none contains a
    blank; a string of blanks only has no word at all. *)
Theorem split_gives_words (s : string) :
  Forall (λ t, t ≠ "" ∧ has_space t = false) (split s) ∧
  (Forall (λ c, is_space c = true) (list_ascii_of_string s) → split s = []).
Proof.
  split; [by apply split_from_words|].
  unfold split. induction s as [|c s IH]; simpl; [reflexivity|].
  intros Hall. inversion Hall as [|? ? Hc Hs]; subst.
  rewrite Hc. simpl. by apply IH.
Qed.

Lemma split_from_app_space (a b : string) (c : ascii) :
  is_space c = true →
  ∀ tok, split_from tok (a +:+ String c b) = split_from tok a ++ split b.
Proof.
  intros Hc. induction a as [|d a IH]; intros tok; simpl.
  - rewrite Hc. destruct (str_truthy tok); reflexivity.
  - destruct (is_space d).
    + destruct (str_truthy tok); rewrite IH; reflexivity.
    + apply IH.
Qed.

(** X2.  The words of snippets joined by newlines are the words of the
    snippets, in order: a join never merges two words nor cuts one. *)
Theorem split_join_newline (l : list string) :
  split (join nl l) = concat (split <$> l).
Proof.
  unfold join. induction l as [|x l IH]; [reflexivity|].
  destruct l as [|y l].
  - simpl. rewrite app_nil_r. reflexivity.
  - change (String.concat nl (x :: y :: l))
      with (x +:+ String (ascii_of_nat 10) (String.concat nl (y :: l))).
    unfold split at 1. rewrite split_from_app_space by reflexivity.
    rewrite IH. reflexivity.
Qed.

Lemma rstrip_all_in (chars t : string) : all_in chars t = true → rstrip chars t = "".
Proof.
  induction t as [|c t IH]; simpl; [reflexivity|].
  intros Hall. apply andb_prop in Hall as [Hc Ht]. rewrite (IH Ht), Hc. reflexivity.
Qed.

Lemma rstrip_app_all_in (chars s t : string) :
  all_in chars t = true → rstrip chars (s +:+ t) = rstrip chars s.
Proof.
  intros Hall. induction s as [|c s IH]; simpl.
  - by apply rstrip_all_in.
  - rewrite IH. reflexivity.
Qed.

Lemma rstrip_id_iff (chars s : string) :
  rstrip chars s = s ↔ last_in chars s = false.
Proof.
  induction s as [|c s IH]; [simpl; tauto|].
  destruct s as [|d s].
  - simpl. destruct (str_mem c chars); split; congruence.
  - change (last_in chars (String c (String d s))) with (last_in chars (String d s)).
    rewrite <- IH.
    change (rstrip chars (String c (String d s)))
      with (match rstrip chars (String d s) with
            | EmptyString => if str_mem c chars then EmptyString else String c EmptyString
            | r => String c r
            end).
    destruct (rstrip chars (String d s)) as [|e r].
    + destruct (str_mem c chars); split; congruence.
    + split; congruence.
Qed.

(** X3.  The Java command runs [java] on the file name stripped of every
    trailing character among [.], [j], [a] and [v], not of the suffix
    [.java]: for the file [<class>.java] that is the class name stripped
    the same way, and it is the class name itself exactly when the class
    name does not end in one of these four characters. *)
Theorem java_command_strips_class_name (class_name : string) :
  get_execution_command "java" (class_name +:+ ".java")
  = Some ("javac " +:+ (class_name +:+ ".java") +:+ " && java "
            +:+ rstrip ".java" class_name) ∧
  (rstrip ".java" class_name = class_name ↔ last_in ".java" class_name = false).
Proof.
  split; [|apply rstrip_id_iff].
  unfold get_execution_command, command_table. cbn [list_to_map foldr fst snd].
  rewrite lookup_insert_ne by discriminate. rewrite lookup_insert_eq.
  rewrite rstrip_app_all_in by reflexivity. reflexivity.
Qed.

(** X4.  In ordered mode the Java file name is the third word of the whole
    accumulated program: once the ledger holds three words, the class name
    is taken from the ledger, whatever the new snippet declares. *)
Theorem ordered_java_file_name_comes_from_ledger
    {K} (w : World K) (code class_name : string) :
  concat (split <$> ledger w "java") !! 2%nat = Some class_name →
  derive_file_name "java" (join nl (ledger w "java" ++ [code]))
  = Ok (class_name +:+ ".java").
Proof.
  intros Hthird. unfold derive_file_name.
  rewrite bool_decide_eq_true_2 by reflexivity.
  rewrite split_join_newline, fmap_app, concat_app.
  rewrite lookup_app_l by (by eapply lookup_lt_Some).
  rewrite Hthird. reflexivity.
Qed.

(** X4 on the demo host: after [public class Main {}] the next ordered
    snippet is compiled as [Main.java], though it declares [Other]. *)
Lemma ordered_java_file_name_comes_from_ledger_witness :
  let H := Demo.host in
  let w1 := (post 9 Demo.world0 (ordered "java" "public class Main {}" (Some "b1"))).1 in
  derive_file_name "java" (join nl (ledger w1 "java" ++ ["public class Other {}"]))
  = Ok "Main.java".
Proof.
  intros H w1.
  apply (ordered_java_file_name_comes_from_ledger w1 "public class Other {}" "Main").
  vm_compute. reflexivity.
Defined.

(** ** More on the view [post] *)

Section PostProperties.
Context {K : Type} {HK : Host K}.

Lemma post_invalid fuel (w : World K) (req : request) :
  truthy (req_code req) && truthy (req_language req) = false →
  post fuel w req
  = (w, Return {| resp_body := ErrorBody "Code or language not provided";
                  resp_status := 400 |}).
Proof.
  intros Hv. unfold post.
  destruct (truthy (req_code req)), (truthy (req_language req)); try discriminate;
    reflexivity.
Qed.

(** X5.  [post] answers 400 exactly when the code or the language is
    missing or empty, and then it changes nothing and dispatches nothing.
    Otherwise it dispatches exactly one program, and a response it returns
    is either 200 with an output or 500 with a non-empty error. *)
Theorem post_answers_400_exactly_when_input_missing
    (fuel : nat) (w : World K) (req : request) :
  let valid := truthy (req_code req) && truthy (req_language req) in
  (valid = false →
   post fuel w req
   = (w, Return {| resp_body := ErrorBody "Code or language not provided";
                   resp_status := 400 |})) ∧
  (valid = true →
   length (dispatched (post fuel w req).1) = S (length (dispatched w)) ∧
   ∀ resp, (post fuel w req).2 = Return resp →
     (resp_status resp = 200 ∧ ∃ r, resp_body resp = OutputBody r) ∨
     (resp_status resp = 500 ∧ ∃ e, e ≠ "" ∧ resp_body resp = ErrorBody e)).
Proof.
  intros valid. split; [apply post_invalid|].
  intros Hvalid. apply andb_prop in Hvalid as [Hc Hl]. split.
  - rewrite post_world, Hc, Hl. cbv zeta. cbn [negb orb].
    destruct (req_execute_in_order req).
    + match goal with
      | |- context [execute_code fuel ?w0 ?L ?c ?b] =>
          destruct (execute_code_frame fuel w0 L c b) as [_ Hd]
      end.
      simpl in Hd. rewrite Hd, length_app. simpl. lia.
    + destruct (execute_code_frame fuel w (default "" (req_language req))
                  (default "" (req_code req)) (req_block_id req)) as [_ Hd].
      simpl in Hd. rewrite Hd, length_app. simpl. lia.
  - intros resp. unfold post. rewrite Hc, Hl. cbn [negb orb].
    destruct (req_execute_in_order req).
    + destruct (execute_code _ _ _ _ _) as [w1 [[result error]| |]]; simpl;
        [|discriminate..].
      destruct (truthy error) eqn:He; intros [= <-]; simpl.
      * right. split; [reflexivity|]. destruct error as [e|]; [|discriminate].
        exists e. split; [by apply str_truthy_true|reflexivity].
      * left. split; [reflexivity|]. by eexists.
    + destruct (execute_code _ _ _ _ _) as [w1 [[result error]| |]]; simpl;
        [|discriminate..].
      destruct (truthy error) eqn:He; intros [= <-]; simpl.
      * right. split; [reflexivity|]. destruct error as [e|]; [|discriminate].
        exists e. split; [by apply str_truthy_true|reflexivity].
      * left. split; [reflexivity|]. by eexists.
Qed.

(** X6.  The ledger of a language changes only by an ordered [post] for
    that language: every other request, the batch view included, leaves
    it as it was. *)
Theorem ledger_changes_only_by_ordered_post (c : call) (w : World K) (L : string) :
  (∀ fuel req, c = CallPost fuel req →
               req_execute_in_order req = true → req_language req ≠ Some L) →
  ledger (run_call c w) L = ledger w L.
Proof.
  intros Hother. destruct c as [fuel req|fuel req]; simpl.
  - unfold ledger. rewrite post_world.
    destruct (truthy (req_code req)) eqn:Hc; [|reflexivity].
    destruct (truthy (req_language req)) eqn:Hl; [|reflexivity].
    cbv zeta. cbn [negb orb].
    destruct (req_execute_in_order req) eqn:Hord.
    + specialize (Hother fuel req eq_refl Hord).
      match goal with
      | |- context [execute_code fuel ?w0 ?L' ?c ?b] =>
          destruct (execute_code_frame fuel w0 L' c b) as [Hcs _]
      end.
      simpl in Hcs. rewrite Hcs. rewrite ledger_append_lookup_ne; [reflexivity|].
      destruct (req_language req) as [L'|]; [|discriminate]. simpl. congruence.
    + destruct (execute_code_frame fuel w (default "" (req_language req))
                  (default "" (req_code req)) (req_block_id req)) as [Hcs _].
      simpl in Hcs. rewrite Hcs. reflexivity.
  - unfold ledger. rewrite post_all_code_sessions. reflexivity.
Qed.

Lemma execute_code_never_raises_outside_compiled fuel (w : World K) (L code : string)
    block_id (e : string) :
  L ∉ compiled_languages → (execute_code fuel w L code block_id).2 ≠ Raise e.
Proof.
  intros Hn. unfold execute_code. rewrite bool_decide_eq_false_2 by exact Hn.
  case_bool_decide; [apply html_css_never_raises|apply jupyter_never_raises].
Qed.

Lemma run_blocks_never_raises_outside_compiled fuel (L : string) (blocks : list block)
    (e : string) :
  L ∉ compiled_languages →
  ∀ (w : World K) acc, (run_blocks fuel w L blocks acc).2 ≠ Raise e.
Proof.
  intros Hn. induction blocks as [|b rest IH]; intros w acc; simpl; [discriminate|].
  destruct (negb (truthy (blk_code b)) || negb (truthy (blk_block_id b))); [apply IH|].
  pose proof (execute_code_never_raises_outside_compiled fuel w L
                (default "" (blk_code b)) (Some (default "" (blk_block_id b))) e Hn) as Hx.
  destruct (execute_code _ _ _ _ _) as [w1 [[result error]|e'|]]; simpl in *.
  - apply IH.
  - intros Heq. apply Hx. congruence.
  - discriminate.
Qed.

(** X7.  For a language outside [cpp], [java] and [c] no exception leaves
    either view: the markup and Jupyter pipelines turn every exception of
    their collaborators into an error pair. *)
Theorem views_never_raise_outside_compiled (L : string) :
  L ∉ compiled_languages →
  (∀ fuel (w : World K) code block_id in_order e,
     (post fuel w {| req_code := code; req_language := Some L;
                     req_block_id := block_id; req_execute_in_order := in_order |}).2
     ≠ Raise e) ∧
  (∀ fuel (w : World K) blocks e,
     (post_all fuel w {| bat_code_blocks := blocks; bat_language := Some L |}).2
     ≠ Raise e).
Proof.
  intros Hn. split.
  - intros fuel w code block_id in_order e. unfold post. simpl.
    destruct (negb (truthy code) || negb (str_truthy L)); [discriminate|].
    destruct in_order.
    + match goal with
      | |- context [execute_code fuel ?w0 ?L' ?c ?b] =>
          pose proof (execute_code_never_raises_outside_compiled fuel w0 L' c b e Hn) as Hx;
          destruct (execute_code fuel w0 L' c b) as [w1 [[result error]|e'|]]
      end; simpl in *; [destruct (truthy error); discriminate
                        |intros Heq; apply Hx; congruence|discriminate].
    + match goal with
      | |- context [execute_code fuel ?w0 ?L' ?c ?b] =>
          pose proof (execute_code_never_raises_outside_compiled fuel w0 L' c b e Hn) as Hx;
          destruct (execute_code fuel w0 L' c b) as [w1 [[result error]|e'|]]
      end; simpl in *; [destruct (truthy error); discriminate
                        |intros Heq; apply Hx; congruence|discriminate].
  - intros fuel w blocks e. unfold post_all. simpl.
    destruct blocks as [|b rest]; [discriminate|].
    destruct (str_truthy L); [|discriminate].
    pose proof (run_blocks_never_raises_outside_compiled fuel L (b :: rest) e Hn w ∅) as Hx.
    change (default "" (Some L)) with L.
    destruct (run_blocks fuel w L (b :: rest) ∅) as [w1 [res|e'|]]; simpl in *;
      [discriminate|intros Heq; apply Hx; congruence|discriminate].
Qed.

End PostProperties.

(** X6 on the demo host: after the ordered [1 +], a plain request for
    Python leaves the ledger of Python as it is. *)
Lemma ledger_changes_only_by_ordered_post_witness :
  let H := Demo.host in
  let w1 := (post 9 Demo.world0 (ordered "python" "1 +" (Some "b1"))).1 in
  let c := CallPost 9 {| req_code := Some "x = 5"; req_language := Some "python";
                         req_block_id := Some "b2"; req_execute_in_order := false |} in
  ledger (run_call c w1) "python" = ledger w1 "python".
Proof.
  intros H w1 c.
  apply (ledger_changes_only_by_ordered_post (HK := H) c w1 "python").
  intros fuel req [= <- <-] Hord. discriminate Hord.
Defined.

(** X7 for Python on the demo host: the failing request is answered, and
    not by the exception of the compiled pipeline. *)
Lemma views_never_raise_outside_compiled_witness :
  let H := Demo.host in
  let r := (post 9 Demo.world0 {| req_code := Some "1 +"; req_language := Some "python";
                                  req_block_id := None; req_execute_in_order := true |}).2 in
  r = Return {| resp_body := ErrorBody "invalid syntax"; resp_status := 500 |} ∧
  r ≠ Raise unbound_tmp_file_path.
Proof.
  intros H r. split; [vm_compute; reflexivity|].
  apply (proj1 (views_never_raise_outside_compiled (HK := H) "python"
                  ltac:(compute_done))).
Defined.

(** ** The shape of the pairs *)

Section PairShape.
Context {K : Type} {HK : Host K}.

Lemma drain_pair_shape (fuel : nat) :
  ∀ (k k' : K) acc r e,
    drain fuel k acc = (k', SReturn (r, e)) →
    (is_Some r ∧ e = None) ∨ (r = None ∧ is_Some e).
Proof.
  induction fuel as [|fuel IH]; intros k k' acc r e; simpl; [discriminate|].
  destruct (kc_get_iopub_msg k 10) as [k1 [msg| |m]]; try discriminate.
  destruct msg as [tp|tx|tb|[st|]|ty]; try discriminate; try apply IH.
  - intros [= <- <- <-]. right. split; [reflexivity|by eexists].
  - case_bool_decide; [|apply IH]. intros [= <- <- <-]. left. split; [by eexists|reflexivity].
Qed.

Lemma exchange_pair_shape fuel (k k' : K) (code : string) r e :
  exchange fuel k code = (k', Return (r, e)) →
  (is_Some r ∧ e = None) ∨ (r = None ∧ is_Some e).
Proof.
  unfold exchange. destruct (kc_execute k code) as [k1 [m|]].
  { intros [= <- <- <-]. right. split; [reflexivity|by eexists]. }
  destruct (kc_get_shell_msg k1 10) as [k2 [reply| |m]].
  - destruct (content reply) as [c|].
    + destruct (status c) as [st|].
      * case_bool_decide.
        -- destruct (drain fuel k2 []) as [k3 [[r' e']| |m|]] eqn:Hd;
             intros [= <- <- <-]; try (right; split; [reflexivity|by eexists]).
           by eapply drain_pair_shape.
        -- intros [= <- <- <-]. right. split; [reflexivity|by eexists].
      * intros [= <- <- <-]. right. split; [reflexivity|by eexists].
    + intros [= <- <- <-]. right. split; [reflexivity|by eexists].
  - intros [= <- <- <-]. right. split; [reflexivity|by eexists].
  - intros [= <- <- <-]. right. split; [reflexivity|by eexists].
Qed.

Lemma jupyter_pair_shape fuel (w : World K) (L code : string) block_id r e :
  (execute_code_with_jupyter fuel w L code block_id).2 = Return (r, e) →
  (is_Some r ∧ e = None) ∨ (r = None ∧ is_Some e).
Proof.
  unfold execute_code_with_jupyter.
  destruct (get_kernel_name L) as [name|].
  2:{ intros [= <- <-]. right. split; [reflexivity|by eexists]. }
  destruct (kernels w !! L) as [entry|].
  - destruct (exchange fuel (kc entry) code) as [k' r'] eqn:Hx. simpl.
    intros ->. by eapply exchange_pair_shape.
  - destruct (start_kernel name) as [k0|m].
    + destruct (exchange fuel k0 code) as [k' r'] eqn:Hx. simpl.
      intros ->. by eapply exchange_pair_shape.
    + intros [= <- <-]. right. split; [reflexivity|by eexists].
Qed.

Lemma html_css_pair_shape (w : World K) (code : string) r e :
  (execute_html_css w code).2 = Return (r, e) →
  (is_Some r ∧ e = None) ∨ (r = None ∧ is_Some e).
Proof.
  unfold execute_html_css.
  destruct (named_temporary_file (files w) ".html") as [path|m].
  - destruct (subprocess_run _ _) as [[fs2 p]|m]; intros [= <- <-].
    + left. split; [by eexists|reflexivity].
    + right. split; [reflexivity|by eexists].
  - intros [= <- <-]. right. split; [reflexivity|by eexists].
Qed.

Lemma compiled_finally_pending_or_raise (w : World K) locals (pending : ret pair_t) :
  (compiled_finally w locals pending).2 = pending ∨
  ∃ e, (compiled_finally w locals pending).2 = Raise e.
Proof.
  unfold compiled_finally, remove_in_finally, os_remove.
  repeat case_match; simpl; eauto.
Qed.

Lemma compiled_body_pair_shape (w : World K) (language code : string) r e :
  (compiled_body w language code).2 = Ok (r, e) →
  (is_Some r ∧ e = None) ∨ (r = None ∧ is_Some e).
Proof.
  unfold compiled_body.
  repeat (case_match; simpl; try discriminate);
    intros [= <- <-];
    first [left; split; [by eexists|reflexivity] | right; split; [reflexivity|by eexists]].
Qed.

Lemma compiled_pair_shape (w : World K) (language code : string) block_id r e :
  (execute_compiled_code w language code block_id).2 = Return (r, e) →
  (is_Some r ∧ e = None) ∨ (r = None ∧ is_Some e).
Proof.
  unfold execute_compiled_code.
  pose proof (compiled_body_pair_shape w language code) as Hb.
  destruct (compiled_body w language code) as [[w1 locals] res]. simpl in Hb.
  destruct (compiled_finally_pending_or_raise w1 locals
              (match res with Ok p => Return p | Exn m => Return (None, Some m) end))
    as [-> | [e' ->]]; [|discriminate].
  destruct res as [[r' e']|m]; intros [= <- <-].
  - by apply Hb.
  - right. split; [reflexivity|by eexists].
Qed.

(** X8.  Whatever pipeline [execute_code] picks, a pair it returns has
    exactly one side: a result and no error, or an error and no result. *)
Theorem returned_pair_has_one_side
    (fuel : nat) (w : World K) (L code : string) (block_id r e : option string) :
  (execute_code fuel w L code block_id).2 = Return (r, e) →
  (is_Some r ∧ e = None) ∨ (r = None ∧ is_Some e).
Proof.
  unfold execute_code. repeat case_bool_decide.
  - apply compiled_pair_shape.
  - apply html_css_pair_shape.
  - apply jupyter_pair_shape.
Qed.

End PairShape.

(** X8 on the demo host: the pair of the C program has a result and no
    error. *)
Lemma returned_pair_has_one_side_witness :
  let H := Demo.host in
  ∃ r e, (execute_code 9 Demo.world0 "c" "int main(){return 0;}" None).2 = Return (r, e) ∧
         ((is_Some r ∧ e = None) ∨ (r = None ∧ is_Some e)).
Proof.
  intros H. exists (Some "hi"), None.
  assert (Hx : (execute_code 9 Demo.world0 "c" "int main(){return 0;}" None).2
               = Return (Some "hi", None)) by (vm_compute; reflexivity).
  split; [exact Hx|].
  exact (returned_pair_has_one_side (HK := H) 9 Demo.world0 "c" "int main(){return 0;}"
           None (Some "hi") None Hx).
Defined.

(** ** More on the compiled and markup pipelines *)

Section CompiledProperties.
Context {K : Type} {HK : Host K}.

Lemma derive_file_name_truthy (language code name : string) :
  derive_file_name language code = Ok name → str_truthy name = true.
Proof.
  unfold derive_file_name. case_bool_decide.
  - destruct (split code !! 2%nat) as [cn|]; [|discriminate].
    intros [= <-]. destruct cn; reflexivity.
  - intros [= <-]. reflexivity.
Qed.

Lemma compiled_body_locals_assigned (w : World K) (language code name path : string) :
  derive_file_name language code = Ok name →
  named_temporary_file (files w) (get_file_extension language) = Ok path →
  ∃ w1 res, compiled_body w language code
            = (w1, {| tmp_file_name := Some name; tmp_file_path := Some path |}, res).
Proof.
  intros Hname Hpath. unfold compiled_body. rewrite Hname, Hpath. cbv zeta.
  repeat case_match; eauto.
Qed.

(** X9.  Once the file name is derived and the temporary file allocated,
    whatever the rename and the child process do, the compiled pipeline
    returns a pair or lets out the exception of an [os.remove] of its
    [finally] clause, never the one of an unassigned [tmp_file_path]; it
    returns a pair when no removal raises. *)
Theorem compiled_returns_once_allocated
    (w : World K) (language code name path : string) (block_id : option string) :
  derive_file_name language code = Ok name →
  named_temporary_file (files w) (get_file_extension language) = Ok path →
  let r := (execute_compiled_code w language code block_id).2 in
  ((∃ p, r = Return p) ∨
   (∃ fs p e, (p = name ∨ p = path) ∧ os_remove_error fs p = Some e ∧ r = Raise e)) ∧
  ((∀ fs p, os_remove_error fs p = None) → ∃ p, r = Return p).
Proof.
  intros Hname Hpath r.
  assert (Hcases : (∃ p, r = Return p) ∨
            (∃ fs p e, (p = name ∨ p = path) ∧ os_remove_error fs p = Some e ∧
                       r = Raise e)).
  { destruct (compiled_body_locals_assigned w language code name path Hname Hpath)
      as (w1 & res & Hbody).
    unfold r, execute_compiled_code. rewrite Hbody.
    match goal with
    | |- context [compiled_finally w1 _ ?pend] =>
        destruct (compiled_finally_returns_or_removal_raises w1 (Some name) path pend)
          as [Hr|(p0 & e0 & Hp0 & _ & He & Hr)]
    end; rewrite Hr.
    - left. destruct res; by eexists.
    - right. exists (files w1), p0, e0.
      split; [destruct Hp0 as [[= ->]| ->]; auto|]. split; [exact He|reflexivity]. }
  split; [exact Hcases|].
  intros Hrm. destruct Hcases as [Hp|(fs & p & e & _ & He & _)]; [exact Hp|].
  rewrite Hrm in He. discriminate.
Qed.

(** X10.  When the temporary file cannot be allocated, the [finally] clause
    decides on the file name alone.  If a file of that name exists,
    [os.remove] is called on it though the call did not create it: the
    file is removed and the allocation error returned, or the exception of
    the removal leaves the call.  If none exists the clause raises and no
    pair is returned. *)
Theorem compiled_allocation_failure
    (w : World K) (language code name message : string) (block_id : option string) :
  derive_file_name language code = Ok name →
  named_temporary_file (files w) (get_file_extension language) = Exn message →
  execute_compiled_code w language code block_id
  = if bool_decide (name ∈ files w)
    then match os_remove_error (files w) name with
         | None => (set_files (files w ∖ {[name]}) w, Return (Failure message))
         | Some e => (w, Raise e)
         end
    else (w, Raise unbound_tmp_file_path).
Proof.
  intros Hname Hpath. unfold execute_compiled_code, compiled_body.
  rewrite Hname, Hpath. cbv zeta.
  unfold compiled_finally, remove_in_finally, os_remove, path_exists. simpl.
  rewrite (derive_file_name_truthy _ _ _ Hname). simpl.
  destruct (bool_decide (name ∈ files w)); [|reflexivity].
  destruct (os_remove_error (files w) name); reflexivity.
Qed.



(** X13.  For [html] and [css] the opener's exit code is not looked at:
    once the file is written and the opener has run, the answer is the
    success message with the path of the file, and the file is not
    removed (the files are those the opener left). *)
Theorem markup_reports_success_whatever_the_opener
    (fuel : nat) (w : World K) (L code path : string) (block_id : option string)
    (fs2 : gset string) (process : completed_process) :
  L ∈ markup_languages →
  named_temporary_file (files w) ".html" = Ok path →
  subprocess_run (if bool_decide (os_name = "nt") then "start " +:+ path
                  else "xdg-open " +:+ path) (files w ∪ {[path]}) = Ok (fs2, process) →
  (execute_code fuel w L code block_id).2
  = Return (Success ("HTML/CSS executed successfully. View it at: file://" +:+ path)) ∧
  files (execute_code fuel w L code block_id).1 = fs2.
Proof.
  intros HL Hpath Hrun. unfold execute_code.
  rewrite bool_decide_eq_false_2.
  2:{ intros Hc. revert HL Hc. unfold markup_languages, compiled_languages.
      rewrite !elem_of_cons, !elem_of_nil. intros [->|[->|[]]]; intros [|[|[|[]]]];
        discriminate. }
  rewrite bool_decide_eq_true_2 by exact HL.
  unfold execute_html_css. simpl. rewrite Hpath. simpl. rewrite Hrun.
  split; reflexivity.
Qed.

End CompiledProperties.

(** X9 on the demo host, where removals succeed, and on the host where
    none is permitted. *)
Lemma compiled_returns_once_allocated_witness :
  (let H := Demo.host in
   ∃ p, (execute_compiled_code Demo.world0 "c" "int main(){return 0;}" None).2
        = Return p) ∧
  (let H := MoreHosts.locked_host in
   (execute_compiled_code Demo.world0 "c" "int main(){return 0;}" None).2
   = Raise "Permission denied").
Proof.
  split.
  - intros H.
    apply (proj2 (compiled_returns_once_allocated (HK := H) Demo.world0 "c"
                    "int main(){return 0;}" "temp_file" "/tmp/tmp0.c" None
                    ltac:(reflexivity) ltac:(reflexivity))).
    reflexivity.
  - intros H. vm_compute. reflexivity.
Defined.

(** X10 on the hosts without temporary files: with no file called
    [temp_file] the call raises; with one, that file is removed, or the
    refused removal raises. *)
Lemma compiled_allocation_failure_witness :
  (let H := MoreHosts.no_tmp_host in
   execute_compiled_code Demo.world0 "c" "int main(){return 0;}" None
   = (Demo.world0, Raise unbound_tmp_file_path) ∧
   (let r := execute_compiled_code (initial_world {["temp_file"]}) "c"
               "int main(){return 0;}" None in
    r.2 = Return (Failure "No usable temporary directory found") ∧
    "temp_file" ∉ files r.1)) ∧
  (let H := MoreHosts.locked_no_tmp_host in
   (execute_compiled_code (initial_world {["temp_file"]}) "c"
      "int main(){return 0;}" None).2 = Raise "Permission denied").
Proof.
  split; [split|].
  - rewrite (compiled_allocation_failure (HK := MoreHosts.no_tmp_host) Demo.world0 "c"
               "int main(){return 0;}" "temp_file" "No usable temporary directory found"
               None ltac:(reflexivity) ltac:(reflexivity)).
    reflexivity.
  - intros r. unfold r.
    rewrite (compiled_allocation_failure (HK := MoreHosts.no_tmp_host)
               (initial_world {["temp_file"]}) "c"
               "int main(){return 0;}" "temp_file" "No usable temporary directory found"
               None ltac:(reflexivity) ltac:(reflexivity)).
    split; [reflexivity|]. compute_done.
  - intros H.
    rewrite (compiled_allocation_failure (HK := H)
               (initial_world {["temp_file"]}) "c"
               "int main(){return 0;}" "temp_file" "No usable temporary directory found"
               None ltac:(reflexivity) ltac:(reflexivity)).
    reflexivity.
Defined.



(** X13 on the demo host, whose opener exits with 1. *)
Lemma markup_reports_success_whatever_the_opener_witness :
  let H := Demo.host in
  (execute_code 9 Demo.world0 "html" "<p>hi</p>" None).2
  = Return (Success "HTML/CSS executed successfully. View it at: file:///tmp/tmp0.html").
Proof.
  intros H.
  apply (proj1 (markup_reports_success_whatever_the_opener (HK := H) 9 Demo.world0
        "html" "<p>hi</p>" "/tmp/tmp0.html" None {["/tmp/tmp0.html"]}
        {| returncode := 1; stdout := ""; stderr := "error: compilation failed" |}
        ltac:(compute_done) ltac:(reflexivity) ltac:(vm_compute; reflexivity))).
Defined.

(** ** More on the Jupyter pipeline *)

Section InteractiveProperties.
Context {K : Type} {HK : Host K}.

(** X14.  A reply whose status is not [ok] ends the call with an error and
    without a single read of the iopub channel: the error is the reply's
    [evalue], a fixed text when it has none, and [Invalid reply from
    kernel] when the reply lacks its content or status; the client stays
    as the shell read left it, the messages of the request unread. *)
Theorem reply_not_ok_is_not_drained
    (fuel : nat) (w : World K) (L code : string) (block_id : option string)
    (k k1 k2 : K) (reply : shell_reply) :
  serves w L k →
  kc_execute k code = (k1, None) →
  kc_get_shell_msg k1 10 = (k2, Got reply) →
  reply_is_ok reply = false →
  let out := execute_code_with_jupyter fuel w L code block_id in
  out.2 = Return (Failure (reply_error reply)) ∧
  kc <$> kernels out.1 !! L = Some k2.
Proof.
  intros Hserves Hexec Hshell Hnok out.
  destruct (jupyter_runs_exchange fuel w L code block_id k Hserves) as (Hout & e & He & Hkc).
  fold out in Hout, He.
  assert (Hx : exchange fuel k code = (k2, Return (Failure (reply_error reply)))).
  { unfold exchange, reply_error, reply_is_ok in *. rewrite Hexec, Hshell.
    destruct (content reply) as [c|]; [|reflexivity].
    destruct (status c) as [st|]; [|reflexivity].
    rewrite bool_decide_eq_false_2; [reflexivity|].
    intros ->. rewrite bool_decide_eq_true_2 in Hnok by reflexivity. discriminate. }
  rewrite Hx in Hout, Hkc. split; [exact Hout|].
  rewrite He. simpl. rewrite Hkc. reflexivity.
Qed.

(** X15.  In the drain loop a status message without [execution_state]
    and a read that raises both end the call with an error, the first with
    the text of the [KeyError], the second with the text of the exception;
    the fragments collected so far are dropped. *)
Theorem drain_reports_broken_messages
    (fuel : nat) (w : World K) (L code : string) (block_id : option string)
    (k k1 k2 k3 : K) (reply : shell_reply) (c : reply_content) (ms : list iopub_msg) :
  serves w L k →
  kc_execute k code = (k1, None) →
  kc_get_shell_msg k1 10 = (k2, Got reply) →
  content reply = Some c → status c = Some "ok" →
  iopub_reads k2 (Got <$> ms) k3 →
  Forall (λ m, passes m = true) ms →
  length ms < fuel →
  let out := execute_code_with_jupyter fuel w L code block_id in
  (∀ k4, kc_get_iopub_msg k3 10 = (k4, Got (Status None)) →
         out.2 = Return (Failure key_error_execution_state)) ∧
  (∀ k4 message, kc_get_iopub_msg k3 10 = (k4, ReadExn message) →
                 out.2 = Return (Failure message)).
Proof.
  intros Hserves Hexec Hshell Hcontent Hstatus Hreads Hpass Hfuel out.
  destruct (jupyter_runs_exchange fuel w L code block_id k Hserves) as (Hout & _).
  fold out in Hout.
  rewrite (exchange_ok fuel k k1 k2 code reply c Hexec Hshell Hcontent Hstatus) in Hout.
  destruct (drain_passes_lt ms k2 k3 [] fuel Hreads Hpass Hfuel) as (fuel' & Hdrain).
  rewrite Hdrain in Hout. cbn [drain] in Hout.
  split; intros k4; [intros Hlast|intros message Hlast];
    rewrite Hlast in Hout; exact Hout.
Qed.

Lemma jupyter_started fuel (w : World K) (L code : string) block_id :
  let w' := (execute_code_with_jupyter fuel w L code block_id).1 in
  started w' = started w ∨ started w' = started w ++ [L].
Proof.
  unfold execute_code_with_jupyter.
  destruct (get_kernel_name L) as [name|]; [|by left].
  destruct (kernels w !! L) as [entry|].
  - destruct (exchange fuel (kc entry) code) as [k' r]. by left.
  - destruct (start_kernel name) as [k0|m]; [|by left].
    destruct (exchange fuel k0 code) as [k' r]. by right.
Qed.

Lemma execute_code_only_interactive fuel (w : World K) (L code : string) block_id :
  only_interactive w → only_interactive (execute_code fuel w L code block_id).1.
Proof.
  intros Hinv. unfold execute_code.
  destruct (bool_decide (L ∈ compiled_languages)) eqn:Hc.
  - pose proof (execute_compiled_code_frame (log_dispatch L code w) L code block_id)
      as (_ & _ & Hs & _). simpl in Hs. unfold only_interactive. rewrite Hs. exact Hinv.
  - destruct (bool_decide (L ∈ markup_languages)) eqn:Hm.
    + pose proof (execute_html_css_frame (log_dispatch L code w) code)
        as (_ & _ & Hs & _). simpl in Hs. unfold only_interactive. rewrite Hs. exact Hinv.
    + apply bool_decide_eq_false_1 in Hc, Hm.
      destruct (jupyter_started fuel (log_dispatch L code w) L code block_id) as [Hs|Hs];
        simpl in Hs; unfold only_interactive; rewrite Hs; [exact Hinv|].
      intros L' Hin. apply elem_of_app in Hin as [Hin|Hin]; [by apply Hinv|].
      apply list_elem_of_singleton in Hin. subst L'. split; assumption.
Qed.

Lemma run_blocks_only_interactive fuel (L : string) (blocks : list block) :
  ∀ (w : World K) acc,
    only_interactive w → only_interactive (run_blocks fuel w L blocks acc).1.
Proof.
  induction blocks as [|b rest IH]; intros w acc Hinv; simpl; [exact Hinv|].
  destruct (negb (truthy (blk_code b)) || negb (truthy (blk_block_id b))); [by apply IH|].
  pose proof (execute_code_only_interactive fuel w L (default "" (blk_code b))
                (Some (default "" (blk_block_id b))) Hinv) as Hstep.
  destruct (execute_code _ _ _ _ _) as [w1 [[result error]| |]]; simpl in *;
    [by apply IH|exact Hstep..].
Qed.

Lemma run_call_only_interactive (c : call) (w : World K) :
  only_interactive w → only_interactive (run_call c w).
Proof.
  intros Hinv. destruct c as [fuel req|fuel req]; simpl.
  - rewrite post_world.
    destruct (negb (truthy (req_code req)) || negb (truthy (req_language req)));
      [exact Hinv|].
    cbv zeta. destruct (req_execute_in_order req);
      apply execute_code_only_interactive; exact Hinv.
  - unfold post_all. destruct (bat_code_blocks req) as [|b rest]; [exact Hinv|].
    destruct (truthy (bat_language req)); [|exact Hinv].
    pose proof (run_blocks_only_interactive fuel (default "" (bat_language req))
                  (b :: rest) w ∅ Hinv) as Hstep.
    destruct (run_blocks _ _ _ _ _) as [w1 r]. exact Hstep.
Qed.

(** X16.  Through the two views a kernel is only ever pooled for [python],
    [javascript] or [r]: the kernel names the table gives for [java],
    [cpp] and [c] are never used, these languages going to the compiled
    pipeline. *)
Theorem kernels_only_for_interactive_languages (w : World K) :
  reachable w →
  ∀ L, is_Some (kernels w !! L) → L ∈ ["python"; "javascript"; "r"].
Proof.
  intros Hreach L [e He].
  assert (Honly : only_interactive w).
  { clear L e He. induction Hreach as [fs|w c _ IH].
    - intros L Hin. by apply not_elem_of_nil in Hin.
    - by apply run_call_only_interactive. }
  destruct (reachable_pool_inv w Hreach) as (_ & Hpooled & _).
  destruct (Hpooled L e He) as [Hat Hname].
  assert (Hin : L ∈ started w) by (apply list_elem_of_lookup; by eexists).
  destruct (Honly L Hin) as [Hnc _].
  unfold get_kernel_name in Hname.
  apply (proj2 (elem_of_dom kernel_table L)) in Hname. unfold kernel_table in Hname.
  rewrite dom_list_to_map_L in Hname. apply elem_of_list_to_set in Hname.
  revert Hname Hnc. unfold kernel_entries, compiled_languages. simpl.
  rewrite !elem_of_cons, !elem_of_nil. intros Hname Hnc.
  destruct Hname as [->|[->|[->|[->|[->|[->|[]]]]]]]; auto; exfalso; apply Hnc; auto.
Qed.

End InteractiveProperties.

(** X14 on the toy kernel: the syntax error is answered from the reply and
    the two iopub messages of the request stay in the queue. *)
Lemma reply_not_ok_is_not_drained_witness :
  let H := Demo.host in
  let out := execute_code_with_jupyter 9 Demo.world0 "python" "1 +" None in
  out.2 = Return (Failure "invalid syntax") ∧
  Queues.iopub <$> (kc <$> kernels out.1 !! "python") = Some [Got busy; Got idle].
Proof.
  intros H out.
  edestruct (λ k k1 k2 reply H1 H2 H3 H4,
              reply_not_ok_is_not_drained (HK := H) 9 Demo.world0 "python" "1 +" None
                k k1 k2 reply H1 H2 H3 H4) as [Hr Hk].
  - exists "python3". split; reflexivity.
  - reflexivity.
  - reflexivity.
  - reflexivity.
  - split; [exact Hr|]. fold out in Hk. rewrite Hk. reflexivity.
Defined.

(** X15 on the kernel with the broken iopub channel. *)
Lemma drain_reports_broken_messages_witness :
  let H := MoreHosts.odd_host in
  (execute_code_with_jupyter 9 Demo.world0 "python" "status" None).2
    = Return (Failure key_error_execution_state) ∧
  (execute_code_with_jupyter 9 Demo.world0 "python" "drop" None).2
    = Return (Failure "connection lost").
Proof.
  intros H. split.
  - eapply (λ k k1 k2 k3 k4 reply c H1 H2 H3 H4 H5 H6 H7 H8 H9,
             proj1 (drain_reports_broken_messages (HK := H) 9 Demo.world0 "python"
                      "status" None k k1 k2 k3 reply c [Stream (Some "1")]
                      H1 H2 H3 H4 H5 H6 H7 H8) k4 H9).
    + exists "python3". split; reflexivity.
    + reflexivity.
    + reflexivity.
    + reflexivity.
    + reflexivity.
    + eapply iopub_reads_cons; [reflexivity|]. apply iopub_reads_nil.
    + repeat constructor.
    + simpl. lia.
    + reflexivity.
  - eapply (λ k k1 k2 k3 k4 reply c H1 H2 H3 H4 H5 H6 H7 H8 H9,
             proj2 (drain_reports_broken_messages (HK := H) 9 Demo.world0 "python"
                      "drop" None k k1 k2 k3 reply c [Stream (Some "1")]
                      H1 H2 H3 H4 H5 H6 H7 H8) k4 "connection lost" H9).
    + exists "python3". split; reflexivity.
    + reflexivity.
    + reflexivity.
    + reflexivity.
    + reflexivity.
    + eapply iopub_reads_cons; [reflexivity|]. apply iopub_reads_nil.
    + repeat constructor.
    + simpl. lia.
    + reflexivity.
Defined.

(** X16 on the demo host, after one Python request. *)
Lemma kernels_only_for_interactive_languages_witness :
  let H := Demo.host in
  let w1 := run_call (CallPost 9 {| req_code := Some "x = 5"; req_language := Some "python";
                                    req_block_id := Some "b1";
                                    req_execute_in_order := false |}) Demo.world0 in
  is_Some (kernels w1 !! "python") ∧ "python" ∈ ["python"; "javascript"; "r"].
Proof.
  intros H w1.
  assert (Hs : is_Some (kernels w1 !! "python")) by (vm_compute; eexists; reflexivity).
  split; [exact Hs|].
  apply (kernels_only_for_interactive_languages (HK := H) w1
           (reachable_call _ _ (reachable_initial ∅)) "python" Hs).
Defined.

(** ** More on the batch view *)

#[local] Set Warnings "-clear-no-such-hyp".

Section BatchProperties.
Context {K : Type} {HK : Host K}.

Lemma skip_test_is_incomplete (b : block) :
  negb (truthy (blk_code b)) || negb (truthy (blk_block_id b)) = negb (block_complete b).
Proof. unfold block_complete. by rewrite negb_andb. Qed.

Lemma run_blocks_returns fuel (L : string) (blocks : list block) :
  ∀ (w w' : World K) acc results,
    run_blocks fuel w L blocks acc = (w', Return results) →
    dispatched w' = dispatched w ++ (block_program L <$> List.filter block_complete blocks) ∧
    dom results
    = dom acc ∪ list_to_set ((λ b, default "" (blk_block_id b))
                               <$> List.filter block_complete blocks).
Proof.
  induction blocks as [|b rest IH]; intros w w' acc results; simpl.
  - intros [= <- <-]. rewrite app_nil_r. split; [reflexivity|]. set_solver.
  - rewrite skip_test_is_incomplete. destruct (block_complete b) eqn:Hb; simpl.
    + pose proof (execute_code_frame fuel w L (default "" (blk_code b))
                    (Some (default "" (blk_block_id b)))) as [_ Hd].
      destruct (execute_code _ _ _ _ _) as [w1 [[result error]| |]];
        simpl in Hd; [|discriminate..].
      intros Hrun. apply IH in Hrun as [Hd' Hdom]. split.
      * rewrite Hd', Hd, <- app_assoc. reflexivity.
      * rewrite Hdom. destruct (truthy error); rewrite dom_insert_L; set_solver.
    + apply IH.
Qed.

(** X17.  A batch that returns has run the complete blocks (code and block
    id both present and non-empty) in the order given, each with its own
    code and never the ledger, which it leaves untouched; the result map
    has an entry for exactly the block ids of these blocks. *)
Theorem batch_runs_complete_blocks_in_order
    (fuel : nat) (w w' : World K) (req : batch_request)
    (results : gmap string body) :
  post_all fuel w req = (w', Return (BatchResults results)) →
  let L := default "" (bat_language req) in
  let complete := List.filter block_complete (bat_code_blocks req) in
  dispatched w' = dispatched w ++ (block_program L <$> complete) ∧
  dom results = list_to_set ((λ b, default "" (blk_block_id b)) <$> complete) ∧
  code_sessions w' = code_sessions w.
Proof.
  intros Hpost L complete.
  pose proof (post_all_code_sessions fuel w req) as Hcs. rewrite Hpost in Hcs.
  simpl in Hcs. revert Hpost. unfold post_all.
  destruct (bat_code_blocks req) as [|b rest] eqn:Hblocks; [discriminate|].
  destruct (truthy (bat_language req)); [|discriminate].
  destruct (run_blocks fuel w (default "" (bat_language req)) (b :: rest) ∅)
    as [w1 [res|e|]] eqn:Hrun; [|discriminate..].
  intros [= <- <-].
  apply run_blocks_returns in Hrun as [Hd Hdom].
  split; [exact Hd|]. split; [|exact Hcs].
  rewrite Hdom, dom_empty_L. set_solver.
Qed.

(** X18.  The batch view answers 400 exactly when the list of blocks is
    empty or the language is missing or empty, and then changes nothing.
    A batch in which no block is complete is no error: it is answered
    with the empty result map, nothing having been run. *)
Theorem post_all_answers_400_exactly_when_input_missing
    (fuel : nat) (w : World K) (req : batch_request) :
  (bat_code_blocks req = [] ∨ truthy (bat_language req) = false →
   post_all fuel w req
   = (w, Return (BatchError "Code blocks or language not provided" 400))) ∧
  (bat_code_blocks req ≠ [] → truthy (bat_language req) = true →
   (∀ error code, (post_all fuel w req).2 ≠ Return (BatchError error code)) ∧
   (Forall (λ b, block_complete b = false) (bat_code_blocks req) →
    post_all fuel w req = (w, Return (BatchResults ∅)))).
Proof.
  split.
  - intros [Hb|Hl]; unfold post_all.
    + rewrite Hb. reflexivity.
    + rewrite Hl. destruct (bat_code_blocks req); reflexivity.
  - intros Hb Hl. unfold post_all. rewrite Hl.
    destruct (bat_code_blocks req) as [|b rest]; [congruence|]. split.
    + intros error code.
      destruct (run_blocks _ _ _ _ _) as [w1 [res|e|]]; discriminate.
    + intros Hall.
      assert (Hskip : ∀ blocks acc,
                Forall (λ b, block_complete b = false) blocks →
                run_blocks fuel w (default "" (bat_language req)) blocks acc
                = (w, Return acc)).
      { induction blocks as [|b' rest' IH]; intros acc Hf; simpl; [reflexivity|].
        inversion Hf as [|? ? Hb' Hrest]; subst.
        rewrite skip_test_is_incomplete, Hb'. simpl. by apply IH. }
      rewrite (Hskip (b :: rest) ∅ Hall). reflexivity.
Qed.

End BatchProperties.

(** X17 on the demo host: of three Python blocks, the one without code is
    not run and has no entry. *)
Lemma batch_runs_complete_blocks_in_order_witness :
  let H := Demo.host in
  let req := {| bat_code_blocks :=
                  [ {| blk_block_id := Some "b1"; blk_code := Some "x = 5" |};
                    {| blk_block_id := Some "b2"; blk_code := None |};
                    {| blk_block_id := Some "b3"; blk_code := Some "print(x)" |} ];
                bat_language := Some "python" |} in
  ∃ w' results,
    post_all 9 Demo.world0 req = (w', Return (BatchResults results)) ∧
    dispatched w' = [("python", "x = 5"); ("python", "print(x)")] ∧
    dom results = {["b1"; "b3"]}.
Proof.
  intros H req.
  destruct (post_all 9 Demo.world0 req) as [w' r] eqn:Hpost.
  assert (Hr : ∃ results, r = Return (BatchResults results)).
  { apply (f_equal snd) in Hpost. simpl in Hpost. rewrite <- Hpost.
    vm_compute. eexists. reflexivity. }
  destruct Hr as [results ->]. exists w', results. split; [reflexivity|].
  destruct (batch_runs_complete_blocks_in_order (HK := H) 9 Demo.world0 w' req results
              Hpost) as (Hd & Hdom & _).
  split; [exact Hd|]. rewrite Hdom. vm_compute. reflexivity.
Defined.

Section RemovalFailure.
Context {K : Type} {HK : Host K}.

(** X19.  An exception of [os.remove] in the [finally] clause replaces the
    return: after a command that ran to its end, when the path the clause
    removes (the file called [tmp_file_name] if the command left one, else
    the temporary file) cannot be removed, the exception leaves the
    pipeline, no pair is returned and the files are all left. *)
Theorem removal_exception_replaces_the_return
    (w : World K) (language code name path command e : string)
    (block_id : option string) (fs2 fs3 : gset string) (process : completed_process) :
  derive_file_name language code = Ok name →
  named_temporary_file (files w) (get_file_extension language) = Ok path →
  (if bool_decide (language = "java")
   then os_rename (files w ∪ {[path]}) path name
   else Ok (files w ∪ {[path]})) = Ok fs2 →
  get_execution_command language
    (if bool_decide (language = "java") then name else path) = Some command →
  subprocess_run command fs2 = Ok (fs3, process) →
  path ≠ "" →
  (if bool_decide (name ∈ fs3) then True else path ∈ fs3) →
  os_remove_error fs3 (if bool_decide (name ∈ fs3) then name else path) = Some e →
  let out := execute_compiled_code w language code block_id in
  out.2 = Raise e ∧ files out.1 = fs3.
Proof.
  intros Hname Hpath Hmv Hcmd Hrun Hne Hin He out.
  destruct (compiled_body_completes w language code name path command fs2 fs3 process
              Hname Hpath Hmv Hcmd Hrun) as (w3 & Hbody & Hfiles).
  unfold out, execute_compiled_code. rewrite Hbody.
  match goal with |- context [compiled_finally _ _ ?p] => generalize p end.
  intros pending. unfold compiled_finally, remove_in_finally, os_remove, path_exists.
  simpl. rewrite (derive_file_name_truthy _ _ _ Hname), Hfiles.
  rewrite (proj2 (str_truthy_true path) Hne). simpl.
  destruct (bool_decide (name ∈ fs3)); simpl.
  - rewrite He. split; [reflexivity|exact Hfiles].
  - rewrite bool_decide_eq_true_2 by exact Hin. rewrite He.
    split; [reflexivity|exact Hfiles].
Qed.

End RemovalFailure.

(** X19 on the host where no removal is permitted: the C program has
    printed [hi], and the call raises. *)
Lemma removal_exception_replaces_the_return_witness :
  let H := MoreHosts.locked_host in
  let out := execute_compiled_code Demo.world0 "c" "int main(){return 0;}" None in
  out.2 = Raise "Permission denied" ∧
  files out.1 = {["/tmp/tmp0.c"; "/tmp/tmp0.c.out"]}.
Proof.
  intros H out.
  apply (removal_exception_replaces_the_return (HK := H) Demo.world0
        "c" "int main(){return 0;}" "temp_file" "/tmp/tmp0.c"
        "gcc /tmp/tmp0.c -o /tmp/tmp0.c.out && /tmp/tmp0.c.out" "Permission denied" None
        {["/tmp/tmp0.c"]} {["/tmp/tmp0.c"; "/tmp/tmp0.c.out"]}
        {| returncode := 0; stdout := "hi"; stderr := "" |}
        ltac:(reflexivity) ltac:(reflexivity) ltac:(vm_compute; reflexivity)
        ltac:(vm_compute; reflexivity) ltac:(vm_compute; reflexivity)
        ltac:(discriminate) ltac:(compute_done) ltac:(reflexivity)).
Defined.
